(** * BookFinder: the Google Books lookup of bookshelf-action

    A shallow embedding of [src/google-books.ts] ([search] and
    [searchByIsbn]) together with the properties of its scoring, filtering,
    ranking and normalisation.

    Modelling conventions.
    - A JavaScript string is a [string]: a sequence of code units, each
      below 256 (the Latin-1 range).  On that range [toLowerCase], [trim]
      and [encodeURIComponent] are written out in full below; code units
      above 255 (and with them the [URIError] of [encodeURIComponent] on a
      lone surrogate) are outside the model.
    - A number of a response or of the options is held as the rational
      that was written ([Q]).  The sum of the score is given over exact
      rationals in [GoogleBooks], where equality of numbers is [Qeq]; what
      depends on comparing scores (the sort and the book it puts first)
      is given again in [Binary64], on the binary64 numbers the code
      computes.  [maxResults], which the interface documents as a count,
      is an integer ([Z]) printed in decimal.
    - An optional property ([x?: T], or a property the provider may leave
      out) is an [option]; truthiness tests are written as the code has
      them ([truthy], [or_str], [or_num], [or_list]).
    - A call either returns or throws: [completion].  The HTTP client
      [got] is a parameter of both operations, and [await] is the
      sequencing of [completion].
    - Line 127 declares [scoredResults] with [const]; lines 161, 173 and
      179 assign to it.  An assignment to a [const] binding throws a
      [TypeError] once its right-hand side is evaluated.  [search_with]
      takes the declaration as a parameter: [search] is the function as
      it is declared, [search_with Let] the function the assignments were
      written for.
    - [Array.prototype.sort] is stable (ECMAScript 2019).
    - [console.error] only writes to the log and is left out. *)

From Stdlib Require Import String Ascii List NArith ZArith QArith Bool Lia Lqa.
From Stdlib Require Import Permutation Sorted DecimalString.
From Stdlib Require Import Floats.SpecFloat Qpower.
Import ListNotations.

Open Scope list_scope.
Open Scope string_scope.

(** ** Built-ins of the host language *)

Module JS.

(** Thrown values.  [Error] is what [throw new Error(msg)] throws;
    [TypeError] is thrown by the language itself; [RequestError] stands
    for whatever the HTTP client rejects with. *)
Inductive exn : Type :=
| Error (message : string)
| TypeError (message : string)
| RequestError (message : string).

Inductive completion (A : Type) : Type :=
| Throw (e : exn)
| Return (v : A).
Arguments Throw {A} e.
Arguments Return {A} v.

Definition bind {A B : Type} (c : completion A) (k : A -> completion B)
  : completion B :=
  match c with
  | Throw e => Throw e
  | Return v => k v
  end.

(** How a variable was declared.  Writing to a [const] binding throws a
    [TypeError]; the right-hand side has been evaluated by then. *)
Inductive declaration : Type := Const | Let.

Definition assignment_to_constant : string :=
  "Assignment to constant variable.".

Definition const_assignment : exn := TypeError assignment_to_constant.

Definition assign {A : Type} (d : declaration) (rhs : A) : completion A :=
  match d with
  | Const => Throw const_assignment
  | Let => Return rhs
  end.

(** Reading a property of [undefined]. *)
Definition undefined_property : string :=
  "Cannot read properties of undefined".

Definition undefined_access : exn := TypeError undefined_property.

(** *** Truthiness and [||] *)

Definition truthy (o : option string) : bool :=
  match o with
  | Some s => negb (s =? "")
  | None => false
  end.

(** [o || d] on strings: the empty string is falsy. *)
Definition or_str (o : option string) (d : string) : string :=
  match o with
  | Some s => if s =? "" then d else s
  | None => d
  end.

(** [o || d] on numbers: zero is falsy. *)
Definition or_num (o : option Q) (d : Q) : Q :=
  match o with
  | Some q => if Qeq_bool q 0 then d else q
  | None => d
  end.

(** [o || []]: every array is truthy, the empty one too. *)
Definition or_list {A : Type} (o : option (list A)) : list A :=
  match o with
  | Some l => l
  | None => []
  end.

(** *** Strings *)

Definition unit_of (c : ascii) : N := N_of_ascii c.

Definition in_range (lo hi n : N) : bool := (lo <=? n)%N && (n <=? hi)%N.

(** [toLowerCase] on one code unit: A-Z, and the Latin-1 capitals
    U+00C0..U+00DE except the multiplication sign U+00D7. *)
Definition lower_unit (c : ascii) : ascii :=
  let n := unit_of c in
  if in_range 65 90 n || (in_range 192 222 n && negb (n =? 215)%N)
  then ascii_of_N (n + 32)
  else c.

Fixpoint toLowerCase (s : string) : string :=
  match s with
  | EmptyString => EmptyString
  | String c s' => String (lower_unit c) (toLowerCase s')
  end.

(** White space and line terminators below 256: TAB, LF, VT, FF, CR,
    SP and NBSP. *)
Definition is_space (c : ascii) : bool :=
  let n := unit_of c in
  in_range 9 13 n || (n =? 32)%N || (n =? 160)%N.

Fixpoint trimStart (s : string) : string :=
  match s with
  | EmptyString => EmptyString
  | String c s' => if is_space c then trimStart s' else s
  end.

Fixpoint trimEnd (s : string) : string :=
  match s with
  | EmptyString => EmptyString
  | String c s' =>
      let r := trimEnd s' in
      if is_space c && (r =? "") then EmptyString else String c r
  end.

Definition trim (s : string) : string := trimEnd (trimStart s).

Fixpoint startsWith (s p : string) {struct p} : bool :=
  match p, s with
  | EmptyString, _ => true
  | String _ _, EmptyString => false
  | String a p', String b s' => (a =? b)%char && startsWith s' p'
  end.

(** [s.includes(sub)] *)
Fixpoint includes (s sub : string) : bool :=
  startsWith s sub
  || match s with
     | EmptyString => false
     | String _ s' => includes s' sub
     end.

Fixpoint every (p : ascii -> bool) (s : string) : bool :=
  match s with
  | EmptyString => true
  | String c s' => p c && every p s'
  end.

Fixpoint keep (p : ascii -> bool) (s : string) : string :=
  match s with
  | EmptyString => EmptyString
  | String c s' => if p c then String c (keep p s') else keep p s'
  end.

Definition is_digit (c : ascii) : bool := in_range 48 57 (unit_of c).
Definition is_hyphen (c : ascii) : bool := (c =? "-")%char.

(** [s.match(/^[0-9-]+$/)] is non-null: one or more code units, each a
    digit or a hyphen, and nothing else up to the end of the input. *)
Definition match_digits_hyphens (s : string) : bool :=
  match s with
  | EmptyString => false
  | String _ _ => every (fun c => is_digit c || is_hyphen c) s
  end.

(** [s.replace(/-/g, '')] *)
Definition remove_hyphens (s : string) : string :=
  keep (fun c => negb (is_hyphen c)) s.

(** [l.join(sep)] *)
Definition join (sep : string) (l : list string) : string :=
  String.concat sep l.

(** *** [encodeURIComponent] *)

Definition hex_digit (n : N) : ascii :=
  if (n <? 10)%N then ascii_of_N (48 + n) else ascii_of_N (55 + n).

(** [%XX] with upper-case hexadecimal digits, for one octet. *)
Definition percent (octet : N) : string :=
  String "%" (String (hex_digit (octet / 16)) (String (hex_digit (octet mod 16)) "")).

(** The characters left as they are: A-Z a-z 0-9 - _ . ! ~ * ' ( ) *)
Definition uri_unreserved (c : ascii) : bool :=
  let n := unit_of c in
  in_range 65 90 n || in_range 97 122 n || in_range 48 57 n
  || (n =? 45)%N || (n =? 95)%N || (n =? 46)%N || (n =? 33)%N
  || (n =? 126)%N || (n =? 42)%N || (n =? 39)%N || (n =? 40)%N
  || (n =? 41)%N.

(** One code unit: itself when unreserved, otherwise the octets of its
    UTF-8 encoding, each percent-escaped (one octet below 128, two
    octets from 128 to 255). *)
Definition encode_unit (c : ascii) : string :=
  let n := unit_of c in
  if uri_unreserved c then String c ""
  else if (n <? 128)%N then percent n
  else percent (192 + n / 64) ++ percent (128 + n mod 64).

Fixpoint encodeURIComponent (s : string) : string :=
  match s with
  | EmptyString => EmptyString
  | String c s' => encode_unit c ++ encodeURIComponent s'
  end.

(** An integer inside a template literal. *)
Definition number_to_string (n : Z) : string :=
  NilEmpty.string_of_int (Z.to_int n).

(** *** [Array.prototype.sort]

    The comparator returns a number; a result [<= 0] leaves its first
    argument in front.  The sort is stable (ECMAScript 2019), which an
    insertion from the right of the array realises: the element being
    inserted came before everything already placed, and stays in front
    of the elements it ties with. *)
Fixpoint insert {A : Type} (compareFn : A -> A -> Q) (x : A) (l : list A)
  : list A :=
  match l with
  | [] => [x]
  | y :: l' =>
      if Qle_bool (compareFn x y) 0 then x :: y :: l'
      else y :: insert compareFn x l'
  end.

Definition sort {A : Type} (compareFn : A -> A -> Q) (l : list A) : list A :=
  fold_right (insert compareFn) [] l.

End JS.

Notation "x <- c ;; k" := (JS.bind c (fun x => k))
  (at level 61, c at next level, right associativity).

(** ** The data model and the two operations of [src/google-books.ts] *)

Module GoogleBooks.
Import JS.

Inductive Maturity : Type := MATURE | NOT_MATURE.

Record IndustryIdentifier : Type := {
  type : string;
  identifier : string
}.

Record ImageLinks : Type := {
  thumbnail : option string
}.

(** [Book.volumeInfo].  The provider leaves out what it does not know, so
    every property but [title] is optional; the constant properties
    [kind] and [printType] carry no information and are left out. *)
Record VolumeInfo : Type := {
  title : string;
  authors : option (list string);
  publisher : option string;
  publishedDate : option string;
  description : option string;
  industryIdentifiers : option (list IndustryIdentifier);
  pageCount : option Q;
  categories : option (list string);
  averageRating : option Q;
  ratingsCount : option Q;
  maturityRating : option Maturity;
  imageLinks : option ImageLinks;
  language : option string;
  previewLink : option string;
  infoLink : option string;
  canonicalVolumeLink : option string
}.

Record Book : Type := {
  id : string;
  volumeInfo : VolumeInfo
}.

(** [BookResult] and its [googleBooks] block.  A property that shares its
    name with one of [volumeInfo] carries the prefix [r_]; [id] becomes
    [gb_id]. *)
Record GoogleBooksLinks : Type := {
  gb_id : string;
  preview : string;
  info : string;
  canonical : string
}.

Record BookResult : Type := {
  r_title : string;
  r_authors : list string;
  r_publisher : string;
  r_publishedDate : string;
  r_description : string;
  image : string;
  r_language : string;
  r_averageRating : Q;
  r_ratingsCount : Q;
  r_categories : list string;
  r_pageCount : Q;
  isbn10 : option string;
  isbn13 : option string;
  googleBooks : GoogleBooksLinks
}.

(** [SearchOptions]; [opt_language] is its [language]. *)
Record SearchOptions : Type := {
  maxResults : option Z;
  exactTitleMatch : option bool;
  minRating : option Q;
  opt_language : option string
}.

(** [options = {}] *)
Definition no_options : SearchOptions :=
  {| maxResults := None; exactTitleMatch := None; minRating := None;
     opt_language := None |}.

(** A destructuring default applies when the property is undefined. *)
Definition default {A : Type} (o : option A) (d : A) : A :=
  match o with
  | Some v => v
  | None => d
  end.

(** The body of a provider response. *)
Record Body : Type := {
  items : option (list Book)
}.

(** [{ book, score }] *)
Record Scored : Type := {
  book : Book;
  score : Q
}.

Definition dquote : string := String (ascii_of_N 34) "".

(** Lines 101-106. *)
Definition searchQuery (query : string) : string :=
  if negb (includes query ":") && negb (match_digits_hyphens query)
  then "intitle:" ++ dquote ++ query ++ dquote
  else query.

(** Line 109. *)
Definition langParam (options : SearchOptions) : string :=
  if truthy (opt_language options)
  then "&langRestrict=" ++ default (opt_language options) ""
  else "".

Definition endpoint : string :=
  "https://www.googleapis.com/books/v1/volumes?q=".

(** Line 114. *)
Definition search_url (query : string) (options : SearchOptions) : string :=
  endpoint ++ encodeURIComponent (searchQuery query) ++ langParam options
  ++ "&maxResults=" ++ number_to_string (default (maxResults options) 10%Z).

(** [volumeInfo.imageLinks?.thumbnail] *)
Definition thumbnail_of (v : VolumeInfo) : option string :=
  match imageLinks v with
  | Some links => thumbnail links
  | None => None
  end.

(** [volumeInfo.industryIdentifiers?.length > 0] *)
Definition has_identifiers (v : VolumeInfo) : bool :=
  match industryIdentifiers v with
  | Some l => (0 <? List.length l)%nat
  | None => false
  end.

Local Open Scope Q_scope.

(** Lines 127-157, the callback of [map]. *)
Definition score_of (query : string) (b : Book) : Q :=
  let v := volumeInfo b in
  let score := 0 in
  let score := score + 10 in
  let score := score + or_num (ratingsCount v) 0 / 100 in
  let score := score + or_num (averageRating v) 0 * 5 in
  let score :=
    if negb (title v =? "")
       && (trim (toLowerCase query) =? trim (toLowerCase (title v)))%string
    then score + 50
    else if negb (title v =? "")
            && includes (toLowerCase (title v)) (toLowerCase query)
    then score + 20
    else score in
  let score := if truthy (description v) then score + 5 else score in
  let score := if truthy (thumbnail_of v) then score + 5 else score in
  let score := if has_identifiers v then score + 5 else score in
  score.

Definition scored (query : string) (results : list Book) : list Scored :=
  map (fun b => {| book := b; score := score_of query b |}) results.

(** Line 162, the rating filter. *)
Definition rated (minRating : Q) (item : Scored) : bool :=
  Qle_bool minRating (or_num (averageRating (volumeInfo (book item))) 0).

(** Line 169, the exact-title filter. *)
Definition exact (query : string) (item : Scored) : bool :=
  (trim (toLowerCase (title (volumeInfo (book item))))
   =? trim (toLowerCase query))%string.

(** Line 179. *)
Definition unscored (results : list Book) : list Scored :=
  map (fun b => {| book := b; score := 0 |}) results.

(** Lines 160-164.  [d] is the declaration of [scoredResults]. *)
Definition filter_rating (d : declaration) (minRating : Q)
           (scoredResults : list Scored) : completion (list Scored) :=
  if negb (Qle_bool minRating 0)
  then assign d (filter (rated minRating) scoredResults)
  else Return scoredResults.

(** Lines 167-175. *)
Definition filter_exact (d : declaration) (exactTitleMatch : bool)
           (query : string) (scoredResults : list Scored)
  : completion (list Scored) :=
  if exactTitleMatch
  then
    let exactMatches := filter (exact query) scoredResults in
    if (0 <? List.length exactMatches)%nat
    then assign d exactMatches
    else Return scoredResults
  else Return scoredResults.

(** Lines 178-180. *)
Definition revert_if_empty (d : declaration) (results : list Book)
           (scoredResults : list Scored) : completion (list Scored) :=
  if (List.length scoredResults =? 0)%nat
  then assign d (unscored results)
  else Return scoredResults.

(** Line 183: [(a, b) => b.score - a.score]. *)
Definition by_score (a b : Scored) : Q := score b - score a.

(** Lines 124-180: the working set just before it is sorted. *)
Definition working_set (d : declaration) (query : string)
           (options : SearchOptions) (results : list Book)
  : completion (list Scored) :=
  let scoredResults := scored query results in
  scoredResults <- filter_rating d (default (minRating options) 0) scoredResults ;;
  scoredResults <- filter_exact d (default (exactTitleMatch options) false)
                                query scoredResults ;;
  revert_if_empty d results scoredResults.

(** Lines 124-183. *)
Definition ranked (d : declaration) (query : string)
           (options : SearchOptions) (results : list Book)
  : completion (list Scored) :=
  scoredResults <- working_set d query options results ;;
  Return (sort by_score scoredResults).

(** [l.find(i => i.type === t)] followed by [.identifier]. *)
Definition find_identifier (t : string) (l : list IndustryIdentifier)
  : option string :=
  match find (fun i => (type i =? t)%string) l with
  | Some i => Some (identifier i)
  | None => None
  end.

Definition image_prefix : string := "https://tse2.mm.bing.net/th?q=".
Definition image_suffix : string :=
  "&w=256&c=7&rs=1&p=0&dpr=3&pid=1.7&mkt=en-IN&adlt=moderate".

(** Lines 188-214, the object [search] returns. *)
Definition normalize_search (result : Book) : BookResult :=
  let v := volumeInfo result in
  {| r_title := title v;
     r_authors := or_list (authors v);
     r_publisher := or_str (publisher v) "";
     r_publishedDate := or_str (publishedDate v) "";
     r_description := or_str (description v) "";
     image :=
       or_str (thumbnail_of v)
              (image_prefix
               ++ encodeURIComponent
                    (title v ++ " by " ++ join ", " (or_list (authors v)))
               ++ image_suffix);
     r_language := or_str (language v) "";
     r_averageRating := or_num (averageRating v) 0;
     r_ratingsCount := or_num (ratingsCount v) 0;
     r_categories := or_list (categories v);
     r_pageCount := or_num (pageCount v) 0;
     isbn10 := find_identifier "ISBN_10" (or_list (industryIdentifiers v));
     isbn13 := find_identifier "ISBN_13" (or_list (industryIdentifiers v));
     googleBooks :=
       {| gb_id := id result;
          preview := or_str (previewLink v) "";
          info := or_str (infoLink v) "";
          canonical := or_str (canonicalVolumeLink v) "" |} |}.

Definition book_not_found : exn := Error "Book not found".

(** [search], with the declaration of [scoredResults] as a parameter. *)
Definition search_with (d : declaration) (got : string -> completion Body)
           (query : string) (options : SearchOptions)
  : completion BookResult :=
  results <- got (search_url query options) ;;
  match items results with
  | None | Some [] => Throw book_not_found
  | Some (first :: more) =>
      scoredResults <- ranked d query options (first :: more) ;;
      match scoredResults with
      | [] => Throw undefined_access
      | top :: _ => Return (normalize_search (book top))
      end
  end.

(** Line 127 declares [const scoredResults]. *)
Definition search := search_with Const.

Definition isbn_url (cleanIsbn : string) : string :=
  endpoint ++ "isbn:" ++ cleanIsbn.

Definition isbn_not_found (isbn : string) : exn :=
  Error ("Book with ISBN " ++ isbn ++ " not found").

(** Lines 241-267, the object [searchByIsbn] returns. *)
Definition normalize_isbn (result : Book) : BookResult :=
  {| r_title := title (volumeInfo result);
     r_authors := or_list (authors (volumeInfo result));
     r_publisher := or_str (publisher (volumeInfo result)) "";
     r_publishedDate := or_str (publishedDate (volumeInfo result)) "";
     r_description := or_str (description (volumeInfo result)) "";
     image :=
       or_str
         (match imageLinks (volumeInfo result) with
          | Some links => thumbnail links
          | None => None
          end)
         ("https://tse2.mm.bing.net/th?q="
          ++ encodeURIComponent
               (title (volumeInfo result) ++ " by "
                ++ join ", " (or_list (authors (volumeInfo result))))
          ++ "&w=256&c=7&rs=1&p=0&dpr=3&pid=1.7&mkt=en-IN&adlt=moderate");
     r_language := or_str (language (volumeInfo result)) "";
     r_averageRating := or_num (averageRating (volumeInfo result)) 0;
     r_ratingsCount := or_num (ratingsCount (volumeInfo result)) 0;
     r_categories := or_list (categories (volumeInfo result));
     r_pageCount := or_num (pageCount (volumeInfo result)) 0;
     isbn10 :=
       match find (fun i => (type i =? "ISBN_10")%string)
                  (or_list (industryIdentifiers (volumeInfo result))) with
       | Some i => Some (identifier i)
       | None => None
       end;
     isbn13 :=
       match find (fun i => (type i =? "ISBN_13")%string)
                  (or_list (industryIdentifiers (volumeInfo result))) with
       | Some i => Some (identifier i)
       | None => None
       end;
     googleBooks :=
       {| gb_id := id result;
          preview := or_str (previewLink (volumeInfo result)) "";
          info := or_str (infoLink (volumeInfo result)) "";
          canonical := or_str (canonicalVolumeLink (volumeInfo result)) "" |} |}.

(** Lines 222-268. *)
Definition searchByIsbn (got : string -> completion Body) (isbn : string)
  : completion BookResult :=
  let cleanIsbn := remove_hyphens isbn in
  results <- got (isbn_url cleanIsbn) ;;
  match items results with
  | None | Some [] => Throw (isbn_not_found isbn)
  | Some (result :: _) => Return (normalize_isbn result)
  end.

End GoogleBooks.


(** ** The ranking of [search] in binary64 arithmetic

    Which candidate comes first depends on the last bit of the scores, so
    the part of [search] that computes and compares scores (lines 127-186)
    is given a second time, on IEEE 754 binary64 numbers rounded to
    nearest-even, as the standard library specifies them ([spec_float]
    with precision 53 and maximal exponent 1024).  A number of the
    provider's response or of the options, which the records above hold
    as the rational that was written, enters the arithmetic as the
    binary64 number nearest to it ([parse]). *)

Module Binary64.
Import JS GoogleBooks.

Definition double : Type := spec_float.

Definition prec : Z := 53.
Definition emax : Z := 1024.

Definition add : double -> double -> double := SFadd prec emax.
Definition sub : double -> double -> double := SFsub prec emax.
Definition mul : double -> double -> double := SFmul prec emax.
Definition div : double -> double -> double := SFdiv prec emax.

Definition zero : double := S754_zero false.

(** The numerator or the denominator of a rational, as a binary integer
    of any length: the operand of the one division that rounds. *)
Definition exact_integer (n : Z) : double :=
  match n with
  | Z0 => S754_zero false
  | Zpos p => S754_finite false p 0
  | Zneg p => S754_finite true p 0
  end.

(** The binary64 number nearest to a rational (ties to even, overflow to
    an infinity): what a decimal literal or a JSON number denotes. *)
Definition parse (q : Q) : double :=
  div (exact_integer (Qnum q)) (exact_integer (Zpos (Qden q))).

(** The literals of lines 128-151. *)
Definition five : double := parse 5.
Definition ten : double := parse 10.
Definition twenty : double := parse 20.
Definition fifty : double := parse 50.
Definition hundred : double := parse 100.

(** [x > 0] and [x >= y]; both are false when a NaN is involved. *)
Definition is_positive (x : double) : bool := SFltb zero x.
Definition at_least (x y : double) : bool := SFleb y x.

(** Zero and NaN are falsy. *)
Definition falsy (x : double) : bool :=
  match x with
  | S754_zero _ | S754_nan => true
  | _ => false
  end.

(** [o || d] on numbers. *)
Definition or_num (o : option Q) (d : double) : double :=
  match o with
  | Some q => if falsy (parse q) then d else parse q
  | None => d
  end.

(** [Array.prototype.sort]: the comparator is asked about the element to
    insert and an element placed behind it; a positive answer moves the
    element back, any other answer (negative, zero, NaN, which the
    language reads as zero) leaves it in front.  The insertion is from the
    right of the array, so that elements that tie keep their order. *)
Fixpoint insert {A : Type} (compareFn : A -> A -> double) (x : A) (l : list A)
  : list A :=
  match l with
  | [] => [x]
  | y :: l' =>
      if is_positive (compareFn x y) then y :: insert compareFn x l'
      else x :: y :: l'
  end.

Definition sort {A : Type} (compareFn : A -> A -> double) (l : list A)
  : list A :=
  fold_right (insert compareFn) [] l.

(** [{ book, score }] *)
Record Scored : Type := {
  book : Book;
  score : double
}.

(** Lines 127-157, the callback of [map]. *)
Definition score_of (query : string) (b : Book) : double :=
  let v := volumeInfo b in
  let score := zero in
  let score := add score ten in
  let score := add score (div (or_num (ratingsCount v) zero) hundred) in
  let score := add score (mul (or_num (averageRating v) zero) five) in
  let score :=
    if negb (title v =? "")
       && (trim (toLowerCase query) =? trim (toLowerCase (title v)))
    then add score fifty
    else if negb (title v =? "")
            && includes (toLowerCase (title v)) (toLowerCase query)
    then add score twenty
    else score in
  let score := if truthy (description v) then add score five else score in
  let score := if truthy (thumbnail_of v) then add score five else score in
  let score := if has_identifiers v then add score five else score in
  score.

Definition scored (query : string) (results : list Book) : list Scored :=
  map (fun b => {| book := b; score := score_of query b |}) results.

(** Line 162. *)
Definition rated (minRating : double) (item : Scored) : bool :=
  at_least (or_num (averageRating (volumeInfo (book item))) zero) minRating.

(** Line 169. *)
Definition exact (query : string) (item : Scored) : bool :=
  trim (toLowerCase (title (volumeInfo (book item))))
  =? trim (toLowerCase query).

(** Line 179. *)
Definition unscored (results : list Book) : list Scored :=
  map (fun b => {| book := b; score := zero |}) results.

(** Lines 160-164. *)
Definition filter_rating (d : declaration) (minRating : double)
           (scoredResults : list Scored) : completion (list Scored) :=
  if is_positive minRating
  then assign d (filter (rated minRating) scoredResults)
  else Return scoredResults.

(** Lines 167-175. *)
Definition filter_exact (d : declaration) (exactTitleMatch : bool)
           (query : string) (scoredResults : list Scored)
  : completion (list Scored) :=
  if exactTitleMatch
  then
    let exactMatches := filter (exact query) scoredResults in
    if (0 <? List.length exactMatches)%nat
    then assign d exactMatches
    else Return scoredResults
  else Return scoredResults.

(** Lines 178-180. *)
Definition revert_if_empty (d : declaration) (results : list Book)
           (scoredResults : list Scored) : completion (list Scored) :=
  if (List.length scoredResults =? 0)%nat
  then assign d (unscored results)
  else Return scoredResults.

(** Line 183: [(a, b) => b.score - a.score]. *)
Definition by_score (a b : Scored) : double := sub (score b) (score a).

(** [minRating = 0] of line 96. *)
Definition minRating_of (options : SearchOptions) : double :=
  match minRating options with
  | Some q => parse q
  | None => zero
  end.

(** Lines 124-180: the working set just before it is sorted. *)
Definition working_set (d : declaration) (query : string)
           (options : SearchOptions) (results : list Book)
  : completion (list Scored) :=
  let scoredResults := scored query results in
  scoredResults <- filter_rating d (minRating_of options) scoredResults ;;
  scoredResults <- filter_exact d (default (exactTitleMatch options) false)
                                query scoredResults ;;
  revert_if_empty d results scoredResults.

(** Lines 124-183. *)
Definition ranked (d : declaration) (query : string)
           (options : SearchOptions) (results : list Book)
  : completion (list Scored) :=
  scoredResults <- working_set d query options results ;;
  Return (sort by_score scoredResults).

(** [search], lines 91-215, with the declaration of [scoredResults] as a
    parameter. *)
Definition search_with (d : declaration) (got : string -> completion Body)
           (query : string) (options : SearchOptions)
  : completion BookResult :=
  results <- got (search_url query options) ;;
  match items results with
  | None | Some [] => Throw book_not_found
  | Some (first :: more) =>
      scoredResults <- ranked d query options (first :: more) ;;
      match scoredResults with
      | [] => Throw undefined_access
      | top :: _ => Return (normalize_search (book top))
      end
  end.

(** Line 127 declares [const scoredResults]. *)
Definition search := search_with Const.

(** *** The numbers behind the scores *)

(** The number a finite binary64 value stands for (0 for the others). *)
Definition real (x : double) : Q :=
  match x with
  | S754_finite s m e => inject_Z (cond_Zopp s (Zpos m)) * 2 ^ e
  | _ => 0
  end.

(** -1 for minus infinity, 1 for plus infinity, 0 in between. *)
Definition side (x : double) : Z :=
  match x with
  | S754_infinity true => -1
  | S754_infinity false => 1
  | _ => 0
  end.

(** The order of the numbers that are not NaN. *)
Definition leb (a b : double) : bool :=
  (side a <? side b)%Z
  || ((side a =? side b)%Z && Qle_bool (real a) (real b)).

Definition le (a b : double) : Prop := leb a b = true.
Definition lt (a b : double) : Prop := leb b a = false.

(** The same number (+0 and -0 are the same). *)
Definition same (a b : double) : bool := leb a b && leb b a.

Definition numeric (x : double) : Prop := x <> S754_nan.

(** A finite value lies on the grid of binary64: its exponent is not
    below the least exponent. *)
Definition on_grid (x : double) : Prop :=
  match x with
  | S754_finite _ _ e => (emin prec emax <= e)%Z
  | _ => True
  end.

(** Descending order of score. *)
Definition descending (l : list Scored) : Prop :=
  StronglySorted (fun a b => le (score b) (score a)) l.



(** Zero, a positive finite number or plus infinity. *)
Definition not_negative (x : double) : Prop :=
  match x with
  | S754_zero _ | S754_infinity false | S754_finite false _ _ => True
  | _ => False
  end.

(** A rating that is absent or not below zero. *)
Definition rating_not_negative (o : option Q) : Prop :=
  match o with
  | Some q => (0 <= q)%Q
  | None => True
  end.

(** No score of the list is NaN. *)
Definition numeric_scores (l : list Scored) : Prop :=
  forall x, In x l -> numeric (score x).

Definition on_grid_scores (l : list Scored) : Prop :=
  forall x, In x l -> on_grid (score x).

(** [ws] selects candidates of [results], in their order, each with the
    score that [points] gives its book. *)
Definition selection (points : Book -> double) (results : list Book)
           (ws : list Scored) : Prop :=
  exists keep : Scored -> bool,
    ws = filter keep (map (fun b => {| book := b; score := points b |}) results).

End Binary64.

(** ** The properties as the specification words them *)

Module Spec.
Import JS GoogleBooks.
Local Open Scope Q_scope.

(** An optional property is present when the provider supplied it. *)
Definition present {A : Type} (o : option A) : bool :=
  match o with
  | Some _ => true
  | None => false
  end.

(** Present and not the empty string. *)
Definition filled (o : option string) : bool :=
  match o with
  | Some s => negb (s =? "")%string
  | None => false
  end.

(** A number, 0 when absent. *)
Definition or_zero (o : option Q) : Q :=
  match o with
  | Some q => q
  | None => 0
  end.

(** The title, lower-cased and trimmed, equals the lower-cased trimmed
    query. *)
Definition same_title (query t : string) : bool :=
  (trim (toLowerCase t) =? trim (toLowerCase query))%string.


Definition contains_queryb (query t : string) : bool :=
  includes (toLowerCase t) (toLowerCase query).

(** +50 for an exact title, else +20 for a partial one. *)
Definition title_bonus (query t : string) : Q :=
  if same_title query t then 50
  else if contains_queryb query t then 20
  else 0.

Definition bonus (b : bool) : Q := if b then 5 else 0.

(** The score, term by term. *)
Definition claimed_score (query : string) (b : Book) : Q :=
  let v := volumeInfo b in
  10 + or_zero (ratingsCount v) / 100 + or_zero (averageRating v) * 5
  + title_bonus query (title v)
  + bonus (present (description v))
  + bonus (present (thumbnail_of v))
  + bonus (has_identifiers v).

(** The same sum, with the title bonuses for a non-empty title only and
    the description and thumbnail bonuses for non-empty strings only. *)
Definition guarded_score (query : string) (b : Book) : Q :=
  let v := volumeInfo b in
  10 + or_zero (ratingsCount v) / 100 + or_zero (averageRating v) * 5
  + (if (title v =? "")%string then 0 else title_bonus query (title v))
  + bonus (filled (description v))
  + bonus (filled (thumbnail_of v))
  + bonus (has_identifiers v).

(** The query holds a colon. *)
Definition has_colon (query : string) : Prop :=
  exists before after : string, query = (before ++ ":" ++ after)%string.

Definition chars (s : string) : list ascii := list_ascii_of_string s.

(** The query is made of digits and hyphens, at least one of them. *)
Definition digits_and_hyphens (query : string) : Prop :=
  query <> "" /\
  forall c, In c (chars query) ->
            (48 <= N_of_ascii c <= 57)%N \/ c = "-"%char.

Definition structured (query : string) : bool :=
  includes query ":" || match_digits_hyphens query.

(** The request as the specification words it: the query unmodified or
    wrapped, langRestrict when the language option is set, maxResults
    with the given or default value. *)
Definition claimed_url (query : string) (options : SearchOptions) : string :=
  (endpoint
   ++ encodeURIComponent
        (if structured query then query
         else "intitle:" ++ dquote ++ query ++ dquote)
   ++ match opt_language options with
      | Some l => "&langRestrict=" ++ l
      | None => ""
      end
   ++ "&maxResults="
   ++ number_to_string (default (maxResults options) 10%Z))%string.

(** The working set after the rating filter and then the exact-title
    filter, as steps 4 and 5 of the algorithm describe them. *)
Definition after_rating (minRating : Q) (l : list Scored) : list Scored :=
  if Qle_bool minRating 0 then l else filter (rated minRating) l.

Definition after_exact (exactTitleMatch : bool) (query : string)
           (l : list Scored) : list Scored :=
  if exactTitleMatch
  then match filter (exact query) l with
       | [] => l
       | m :: ms => m :: ms
       end
  else l.

Definition filtered (query : string) (options : SearchOptions)
           (results : list Book) : list Scored :=
  after_exact (default (exactTitleMatch options) false) query
              (after_rating (default (minRating options) 0)
                            (scored query results)).

(** The NotFound error of either operation. *)
Definition NotFound (e : exn) : Prop :=
  e = book_not_found \/ exists isbn, e = isbn_not_found isbn.

(** The provider answered with no candidate. *)
Definition no_candidates (body : Body) : Prop :=
  items body = None \/ items body = Some [].

End Spec.

(** ** Sample provider data *)

Module Samples.
Import JS GoogleBooks.
Local Open Scope Q_scope.

(** A volume of which the provider knows the title only. *)
Definition bare (t : string) : VolumeInfo :=
  {| title := t; authors := None; publisher := None; publishedDate := None;
     description := None; industryIdentifiers := None; pageCount := None;
     categories := None; averageRating := None; ratingsCount := None;
     maturityRating := None; imageLinks := None; language := None;
     previewLink := None; infoLink := None; canonicalVolumeLink := None |}.

(** A volume with a title, a rating and a number of ratings. *)
Definition rated_volume (t : string) (rating count : Q) : VolumeInfo :=
  {| title := t; authors := None; publisher := None; publishedDate := None;
     description := None; industryIdentifiers := None; pageCount := None;
     categories := None; averageRating := Some rating;
     ratingsCount := Some count;
     maturityRating := None; imageLinks := None; language := None;
     previewLink := None; infoLink := None; canonicalVolumeLink := None |}.

Definition untitled : Book := {| id := "v0"; volumeInfo := bare "" |}.

Definition dune : Book :=
  {| id := "v1"; volumeInfo := rated_volume "Dune" 4.5 1000 |}.
Definition dune_messiah : Book :=
  {| id := "v2"; volumeInfo := rated_volume "Dune Messiah" 4 10 |}.
Definition dune_italian : Book :=
  {| id := "v3"; volumeInfo := rated_volume "Dune (Italian Edition)" 3 5 |}.

Definition dune_blank : Book :=
  {| id := "v6";
     volumeInfo :=
       {| title := "Dune"; authors := None; publisher := None;
          publishedDate := None; description := Some "";
          industryIdentifiers := Some []; pageCount := None;
          categories := None; averageRating := None; ratingsCount := None;
          maturityRating := None;
          imageLinks := Some {| thumbnail := Some "" |}; language := None;
          previewLink := None; infoLink := None;
          canonicalVolumeLink := None |} |}.

Definition foo : Book :=
  {| id := "v4";
     volumeInfo :=
       {| title := "Foo"; authors := Some ["Bar"]; publisher := None;
          publishedDate := None; description := None;
          industryIdentifiers := None; pageCount := None;
          categories := None; averageRating := None; ratingsCount := None;
          maturityRating := None; imageLinks := None; language := None;
          previewLink := None; infoLink := None;
          canonicalVolumeLink := None |} |}.

Definition hyperion : Book :=
  {| id := "v5";
     volumeInfo :=
       {| title := "Hyperion"; authors := Some ["Dan Simmons"];
          publisher := Some "Bantam"; publishedDate := Some "1990";
          description := Some "The first Hyperion novel.";
          industryIdentifiers :=
            Some [ {| type := "ISBN_13"; identifier := "9780553283686" |};
                   {| type := "ISBN_10"; identifier := "0553283685" |};
                   {| type := "ISBN_10"; identifier := "0000000000" |} ];
          pageCount := Some 482; categories := Some ["Fiction"];
          averageRating := Some 4; ratingsCount := Some 250;
          maturityRating := Some NOT_MATURE;
          imageLinks := Some {| thumbnail := Some "http://books.example/h.jpg" |};
          language := Some "en"; previewLink := Some "http://books.example/p";
          infoLink := None; canonicalVolumeLink := Some "" |} |}.

(** A provider that answers one request, with the given candidates. *)
Definition provider (url : string) (candidates : option (list Book))
  : string -> completion Body :=
  fun request =>
    if (request =? url)%string then Return {| items := candidates |}
    else Throw (RequestError "unexpected request").

(** [{ minRating }], [{ exactTitleMatch: true }], [{ language }]. *)
Definition min_rating (q : Q) : SearchOptions :=
  {| maxResults := None; exactTitleMatch := None; minRating := Some q;
     opt_language := None |}.
Definition exact_title : SearchOptions :=
  {| maxResults := None; exactTitleMatch := Some true; minRating := None;
     opt_language := None |}.
Definition in_language (l : string) : SearchOptions :=
  {| maxResults := None; exactTitleMatch := None; minRating := None;
     opt_language := Some l |}.
Definition exact_and_rated (q : Q) : SearchOptions :=
  {| maxResults := Some 5%Z; exactTitleMatch := Some true;
     minRating := Some q; opt_language := None |}.

End Samples.

Import JS GoogleBooks.

(** ** Alphabets of the requests *)

(** What [encodeURIComponent] can put out: an unreserved character or a
    percent sign (the hexadecimal digits of an escape are unreserved). *)
Definition escaped_unit (c : ascii) : bool :=
  uri_unreserved c || (c =? "%")%char.

(** The characters of the fixed parts of the two addresses. *)
Definition address_unit (c : ascii) : bool :=
  escaped_unit c
  || (c =? ":")%char || (c =? "/")%char || (c =? "?")%char
  || (c =? "=")%char || (c =? "&")%char.

(** [{ exactTitleMatch: true }] on top of a non-positive [minRating]. *)
Definition exact_unrated : SearchOptions :=
  {| maxResults := None; exactTitleMatch := Some true;
     minRating := Some (-1)%Q; opt_language := Some "en" |}.

(** Two candidates whose scores for the query "Dune" differ in the last
    bit only: 47.62 and 47.620000000000005. *)
Definition messiah_12 : Book :=
  {| id := "v7"; volumeInfo := Samples.rated_volume "Dune Messiah" 3.5 12 |}.
Definition saga_262 : Book :=
  {| id := "v8"; volumeInfo := Samples.rated_volume "Dune Saga" 3 262 |}.

(** ** Facts about the built-ins *)

Section Strings.

Lemma startsWith_spec (s p : string) :
  startsWith s p = true <-> exists after, s = p ++ after.
Proof.
  revert s; induction p as [|a p IH]; intros s; simpl.
  - split; [intros _; now exists s | reflexivity].
  - destruct s as [|b s].
    + split; [discriminate | intros [after H]; discriminate].
    + rewrite andb_true_iff, Ascii.eqb_eq, IH. split.
      * intros [-> [after ->]]. now exists after.
      * intros [after H]. injection H as -> ->. split; [reflexivity | now exists after].
Qed.

Lemma includes_spec (s sub : string) :
  includes s sub = true <-> exists before after, s = before ++ sub ++ after.
Proof.
  induction s as [|c s IH].
  - cbn [includes]. rewrite orb_false_r, startsWith_spec. split.
    + intros [after H]. now exists "", after.
    + intros [before [after H]]. destruct before as [|x before]; [|discriminate].
      now exists after.
  - cbn [includes]. rewrite orb_true_iff, startsWith_spec, IH. split.
    + intros [[after H] | [before [after H]]].
      * now exists "", after.
      * exists (String c before), after. simpl. now rewrite H.
    + intros [before [after H]]. destruct before as [|x before].
      * left. now exists after.
      * right. simpl in H. injection H as _ H. now exists before, after.
Qed.

Lemma every_spec (p : ascii -> bool) (s : string) :
  every p s = true <-> forall c, In c (Spec.chars s) -> p c = true.
Proof.
  induction s as [|a s IH]; simpl.
  - split; [intros _ c [] | reflexivity].
  - rewrite andb_true_iff, IH. split.
    + intros [Ha Hs] c [<- | Hin]; auto.
    + intros H. split; [apply H; now left | intros c Hc; apply H; now right].
Qed.

Lemma is_digit_spec (c : ascii) :
  is_digit c = true <-> (48 <= N_of_ascii c <= 57)%N.
Proof.
  unfold is_digit, in_range, unit_of.
  rewrite andb_true_iff, !N.leb_le. tauto.
Qed.

Lemma is_hyphen_spec (c : ascii) : is_hyphen c = true <-> c = "-"%char.
Proof. apply Ascii.eqb_eq. Qed.

(** The regular expression [/^[0-9-]+$/] accepts the non-empty strings of
    digits and hyphens. *)
Lemma match_digits_hyphens_spec (query : string) :
  match_digits_hyphens query = true <-> Spec.digits_and_hyphens query.
Proof.
  unfold match_digits_hyphens, Spec.digits_and_hyphens.
  destruct query as [|a s].
  - split; [discriminate | intros [H _]; now elim H].
  - rewrite every_spec. split.
    + intros H. split; [discriminate|]. intros c Hc.
      apply H in Hc. apply orb_true_iff in Hc.
      now rewrite is_digit_spec, is_hyphen_spec in Hc.
    + intros [_ H] c Hc. apply orb_true_iff.
      rewrite is_digit_spec, is_hyphen_spec. now apply H.
Qed.

Lemma has_colon_spec (query : string) :
  includes query ":" = true <-> Spec.has_colon query.
Proof. apply includes_spec. Qed.

Lemma chars_keep (p : ascii -> bool) (s : string) :
  Spec.chars (keep p s) = filter p (Spec.chars s).
Proof.
  induction s as [|a s IH]; simpl; [reflexivity|].
  destruct (p a); simpl; now rewrite IH.
Qed.

(** [replace(/-/g, '')] leaves no hyphen, and drops nothing else. *)
Lemma remove_hyphens_chars (s : string) :
  Spec.chars (remove_hyphens s)
  = filter (fun c => negb (c =? "-")%char) (Spec.chars s).
Proof. apply chars_keep. Qed.

Lemma remove_hyphens_no_hyphen (s : string) :
  ~ In "-"%char (Spec.chars (remove_hyphens s)).
Proof.
  rewrite remove_hyphens_chars, filter_In. intros [_ H].
  now rewrite Ascii.eqb_refl in H.
Qed.

Lemma keep_all (p : ascii -> bool) (s : string) :
  every p s = true -> keep p s = s.
Proof.
  induction s as [|a s IH]; simpl; [reflexivity|].
  intros H. apply andb_true_iff in H as [-> H]. now rewrite IH.
Qed.

Lemma remove_hyphens_includes (s : string) :
  includes (remove_hyphens s) "-" = false.
Proof.
  destruct (includes (remove_hyphens s) "-") eqn:E; [|reflexivity].
  exfalso. apply includes_spec in E as [before [after E]].
  apply (remove_hyphens_no_hyphen s). rewrite E. unfold Spec.chars.
  clear E. induction before as [|b before IH]; simpl; auto.
Qed.

Lemma or_str_nonempty (o : option string) (d : string) :
  d <> "" -> or_str o d <> "".
Proof.
  intros Hd. destruct o as [s|]; simpl; [|exact Hd].
  destruct (String.eqb_spec s ""); assumption.
Qed.

Lemma or_str_falsy (o : option string) (d : string) :
  truthy o = false -> or_str o d = d.
Proof.
  destruct o as [s|]; simpl; [|reflexivity].
  now destruct (s =? "").
Qed.

Lemma or_str_truthy (o : option string) (d : string) :
  truthy o = true -> Some (or_str o d) = o.
Proof.
  destruct o as [s|]; simpl; [|discriminate].
  now destruct (s =? "").
Qed.

End Strings.

Section Numbers.
Local Open Scope Q_scope.

(** [x || 0] is [x], and 0 when [x] is absent. *)
Lemma or_num_zero (o : option Q) : or_num o 0 == Spec.or_zero o.
Proof.
  destruct o as [q|]; simpl; [|reflexivity].
  destruct (Qeq_bool q 0) eqn:E; [|reflexivity].
  apply Qeq_bool_iff in E. now rewrite E.
Qed.

Lemma Qle_bool_false (a b : Q) : Qle_bool a b = false <-> b < a.
Proof.
  rewrite <- not_true_iff_false, Qle_bool_iff. split.
  - apply Qnot_le_lt.
  - apply Qlt_not_le.
Qed.

End Numbers.

(** ** Facts about the sort *)

Section Sorting.
Local Open Scope Q_scope.
Local Open Scope list_scope.

Lemma insert_perm {A : Type} (f : A -> A -> Q) (x : A) (l : list A) :
  Permutation (JS.insert f x l) (x :: l).
Proof.
  induction l as [|y l IH]; simpl; [reflexivity|].
  destruct (Qle_bool (f x y) 0); [reflexivity|].
  rewrite IH. apply perm_swap.
Qed.

Lemma sort_perm {A : Type} (f : A -> A -> Q) (l : list A) :
  Permutation (JS.sort f l) l.
Proof.
  induction l as [|x l IH]; simpl; [reflexivity|].
  unfold JS.sort in *. simpl. rewrite insert_perm. now constructor.
Qed.

Lemma sort_length {A : Type} (f : A -> A -> Q) (l : list A) :
  List.length (JS.sort f l) = List.length l.
Proof. apply Permutation_length, sort_perm. Qed.

Lemma sort_nonempty {A : Type} (f : A -> A -> Q) (l : list A) :
  l <> [] -> JS.sort f l <> [].
Proof.
  intros Hl Hs. apply Hl. apply Permutation_nil.
  rewrite <- Hs. apply sort_perm.
Qed.

End Sorting.

(** ** Facts about binary64 arithmetic and the sort on binary64 scores *)

Section Shifts.
Local Open Scope Z_scope.

Lemma iter_pos_nat {A : Type} (f : A -> A) (p : positive) (x : A) :
  iter_pos f p x = Nat.iter (Pos.to_nat p) f x.
Proof.
  revert x. induction p as [p IH|p IH|]; intros x; cbn [iter_pos].
  - rewrite !IH, Pos2Nat.inj_xI. cbn [Nat.iter Nat.mul].
    rewrite Nat.add_0_r, <- Nat.iter_add, <- Nat.iter_succ_r. reflexivity.
  - rewrite !IH, Pos2Nat.inj_xO. cbn [Nat.mul].
    now rewrite Nat.add_0_r, <- Nat.iter_add.
  - reflexivity.
Qed.

Lemma shr_1_digits (p : positive) (r s : bool) :
  (2 <= Pos.to_nat (digits2_pos p))%nat ->
  exists p' r' s',
    shr_1 {| shr_m := Zpos p; shr_r := r; shr_s := s |}
    = {| shr_m := Zpos p'; shr_r := r'; shr_s := s' |}
    /\ Pos.to_nat (digits2_pos p') = (Pos.to_nat (digits2_pos p) - 1)%nat.
Proof.
  destruct p as [p|p|]; cbn [shr_1 digits2_pos]; intros H.
  - exists p, true, (r || s)%bool. split; [reflexivity | lia].
  - exists p, false, (r || s)%bool. split; [reflexivity | lia].
  - simpl in H. lia.
Qed.

Lemma iter_shr_1_digits (n : nat) (p : positive) (r s : bool) :
  (n < Pos.to_nat (digits2_pos p))%nat ->
  exists p' r' s',
    Nat.iter n shr_1 {| shr_m := Zpos p; shr_r := r; shr_s := s |}
    = {| shr_m := Zpos p'; shr_r := r'; shr_s := s' |}
    /\ Pos.to_nat (digits2_pos p') = (Pos.to_nat (digits2_pos p) - n)%nat.
Proof.
  induction n as [|n IH]; intros H.
  - exists p, r, s. split; [reflexivity | lia].
  - destruct IH as [p' [r' [s' [E D]]]]; [lia|].
    rewrite Nat.iter_succ, E.
    destruct (shr_1_digits p' r' s') as [p'' [r'' [s'' [E' D']]]]; [lia|].
    exists p'', r'', s''. split; [exact E' | lia].
Qed.

End Shifts.

Section Rounding.
Local Open Scope Z_scope.

Lemma emin_value : emin Binary64.prec Binary64.emax = -1074.
Proof. reflexivity. Qed.

Lemma fexp_value (e : Z) : fexp Binary64.prec Binary64.emax e = Z.max (e - 53) (-1074).
Proof. reflexivity. Qed.

Lemma shr_m_of_loc (m : Z) (l : location) :
  shr_m (shr_record_of_loc m l) = m.
Proof. destruct l as [|[]]; reflexivity. Qed.

Lemma record_of_loc (m : Z) (l : location) :
  exists r s, shr_record_of_loc m l = {| shr_m := m; shr_r := r; shr_s := s |}.
Proof. destruct l as [|[]]; simpl; eauto. Qed.

(** Shifting to the rounding exponent leaves a positive mantissa positive
    and the exponent on the grid. *)
Lemma shr_fexp_positive (p : positive) (e : Z) (l : location) :
  -1074 <= e ->
  exists p' r s e',
    shr_fexp Binary64.prec Binary64.emax (Zpos p) e l
    = ({| shr_m := Zpos p'; shr_r := r; shr_s := s |}, e')
    /\ -1074 <= e'.
Proof.
  intros He. unfold shr_fexp, shr. rewrite fexp_value.
  destruct (record_of_loc (Zpos p) l) as [r [s ->]].
  cbn [Zdigits2].
  destruct (Z.max (Zpos (digits2_pos p) + e - 53) (-1074) - e) as [|k|k] eqn:En.
  - exists p, r, s, e. now split.
  - rewrite iter_pos_nat.
    destruct (iter_shr_1_digits (Pos.to_nat k) p r s) as [p' [r' [s' [E _]]]].
    { lia. }
    exists p', r', s', (e + Zpos k). rewrite E. split; [reflexivity | lia].
  - exists p, r, s, e. now split.
Qed.

Lemma round_nearest_even_positive (p : positive) (l : location) :
  exists p', round_nearest_even (Zpos p) l = Zpos p'.
Proof.
  destruct l as [|[]]; cbn [round_nearest_even]; eauto.
  - destruct (Z.even (Zpos p)); [eauto|]. now exists (p + 1)%positive.
  - now exists (p + 1)%positive.
Qed.

(** Rounding a positive mantissa on the grid gives a finite number or an
    infinity, with the sign that was asked for. *)
Lemma binary_round_aux_positive (s : bool) (p : positive) (e : Z) (l : location) :
  -1074 <= e ->
  (exists m' e', binary_round_aux Binary64.prec Binary64.emax s (Zpos p) e l = S754_finite s m' e'
                 /\ -1074 <= e')
  \/ binary_round_aux Binary64.prec Binary64.emax s (Zpos p) e l = S754_infinity s.
Proof.
  intros He. unfold binary_round_aux.
  destruct (shr_fexp_positive p e l He) as [p1 [r1 [s1 [e1 [-> He1]]]]].
  cbn [shr_m].
  destruct (round_nearest_even_positive p1
              (loc_of_shr_record {| shr_m := Zpos p1; shr_r := r1; shr_s := s1 |}))
    as [p2 ->].
  destruct (shr_fexp_positive p2 e1 loc_Exact He1) as [p3 [r3 [s3 [e3 [-> He3]]]]].
  cbn [shr_m]. destruct (e3 <=? Binary64.emax - Binary64.prec); [left | right; reflexivity].
  now exists p3, e3.
Qed.

Lemma shl_align_exponent (m : positive) (e e' : Z) :
  -1074 <= e -> -1074 <= e' -> -1074 <= snd (shl_align m e e').
Proof. unfold shl_align. now destruct (e' - e). Qed.

Lemma binary_round_positive (s : bool) (p : positive) (e : Z) :
  -1074 <= e ->
  (exists m' e', binary_round Binary64.prec Binary64.emax s p e = S754_finite s m' e'
                 /\ -1074 <= e')
  \/ binary_round Binary64.prec Binary64.emax s p e = S754_infinity s.
Proof.
  intros He. unfold binary_round.
  pose proof (shl_align_exponent p e (fexp Binary64.prec Binary64.emax (Zpos (digits2_pos p) + e))
                                 He) as H.
  destruct (shl_align p e _) as [mz ez]. cbn [snd] in H.
  apply binary_round_aux_positive, H. rewrite fexp_value. lia.
Qed.

End Rounding.

Section Grid.
Local Open Scope Z_scope.

Lemma shr_fexp_exponent (m e : Z) (l : location) :
  -1074 <= snd (shr_fexp Binary64.prec Binary64.emax m e l).
Proof.
  unfold shr_fexp, shr. rewrite fexp_value.
  destruct (Z.max (Zdigits2 m + e - 53) (-1074) - e) eqn:En; cbn [snd]; lia.
Qed.

Lemma binary_round_aux_on_grid (s : bool) (m e : Z) (l : location) :
  Binary64.on_grid (binary_round_aux Binary64.prec Binary64.emax s m e l).
Proof.
  unfold binary_round_aux.
  destruct (shr_fexp Binary64.prec Binary64.emax m e l) as [mrs1 e1].
  pose proof (shr_fexp_exponent
                (round_nearest_even (shr_m mrs1) (loc_of_shr_record mrs1))
                e1 loc_Exact) as H.
  destruct (shr_fexp Binary64.prec Binary64.emax _ e1 loc_Exact) as [mrs2 e2]. cbn [snd] in H.
  destruct (shr_m mrs2); try exact I.
  destruct (e2 <=? Binary64.emax - Binary64.prec); [exact H | exact I].
Qed.

Lemma binary_normalize_on_grid (m e : Z) (s : bool) :
  Binary64.on_grid (binary_normalize Binary64.prec Binary64.emax m e s).
Proof.
  unfold binary_normalize, binary_round.
  destruct m as [|p|p]; [exact I | |];
    destruct (shl_align p e _) as [mz ez]; apply binary_round_aux_on_grid.
Qed.

Lemma mul_on_grid (a b : Binary64.double) : Binary64.on_grid (Binary64.mul a b).
Proof.
  destruct a as [sa|sa| |sa ma ea], b as [sb|sb| |sb mb eb]; try exact I.
  apply binary_round_aux_on_grid.
Qed.

Lemma div_on_grid (a b : Binary64.double) : Binary64.on_grid (Binary64.div a b).
Proof.
  destruct a as [sa|sa| |sa ma ea], b as [sb|sb| |sb mb eb]; try exact I.
  unfold Binary64.div, SFdiv.
  destruct (SFdiv_core_binary _ _ _ _ _ _) as [[mz ez] lz].
  apply binary_round_aux_on_grid.
Qed.

Lemma add_on_grid (a b : Binary64.double) :
  Binary64.on_grid a -> Binary64.on_grid b -> Binary64.on_grid (Binary64.add a b).
Proof.
  destruct a as [sa|sa| |sa ma ea], b as [sb|sb| |sb mb eb]; intros Ha Hb;
    try exact I; try assumption.
  - now destruct sa, sb.
  - now destruct sa, sb.
  - apply binary_normalize_on_grid.
Qed.

Lemma parse_on_grid (q : Q) : Binary64.on_grid (Binary64.parse q).
Proof. apply div_on_grid. Qed.

Lemma or_num_on_grid (o : option Q) (d : Binary64.double) :
  Binary64.on_grid d -> Binary64.on_grid (Binary64.or_num o d).
Proof.
  intros Hd. destruct o as [q|]; simpl; [|exact Hd].
  destruct (Binary64.falsy (Binary64.parse q)); [exact Hd | apply parse_on_grid].
Qed.

Lemma score_of_on_grid (query : string) (b : Book) :
  Binary64.on_grid (Binary64.score_of query b).
Proof.
  unfold Binary64.score_of. cbv zeta.
  repeat match goal with
         | |- Binary64.on_grid (if ?c then _ else _) => destruct c
         | |- Binary64.on_grid (Binary64.add _ _) => apply add_on_grid
         | |- Binary64.on_grid (Binary64.mul _ _) => apply mul_on_grid
         | |- Binary64.on_grid (Binary64.div _ _) => apply div_on_grid
         | |- Binary64.on_grid Binary64.zero => exact I
         | |- Binary64.on_grid Binary64.five => apply parse_on_grid
         | |- Binary64.on_grid Binary64.ten => apply parse_on_grid
         | |- Binary64.on_grid Binary64.twenty => apply parse_on_grid
         | |- Binary64.on_grid Binary64.fifty => apply parse_on_grid
         end.
Qed.

End Grid.

Section Order.
Local Open Scope Z_scope.
Import Binary64.
Local Open Scope Q_scope.

Lemma leb_spec (a b : double) :
  leb a b = true
  <-> (side a < side b)%Z \/ (side a = side b /\ real a <= real b).
Proof.
  unfold leb. rewrite orb_true_iff, andb_true_iff, Z.ltb_lt, Z.eqb_eq,
    Qle_bool_iff. tauto.
Qed.

Lemma leb_false (a b : double) :
  leb a b = false
  <-> (side b < side a)%Z \/ (side a = side b /\ real b < real a).
Proof.
  rewrite <- not_true_iff_false, leb_spec. split.
  - intros H. destruct (Z.lt_trichotomy (side a) (side b)) as [L | [E | G]].
    + elim H. now left.
    + right. split; [exact E|]. apply Qnot_le_lt. intros Hle. elim H. now right.
    + now left.
  - intros [G | [E L]] [L' | [E' L']]; try lia. now apply Qlt_not_le in L.
Qed.

Lemma le_refl (a : double) : le a a.
Proof. apply leb_spec. right. split; [reflexivity | apply Qle_refl]. Qed.

Lemma le_trans (a b c : double) : le a b -> le b c -> le a c.
Proof.
  unfold le. rewrite !leb_spec.
  intros [L1 | [E1 L1]] [L2 | [E2 L2]]; try (left; lia).
  right. split; [lia | now apply Qle_trans with (real b)].
Qed.

Lemma lt_le (a b : double) : lt a b -> le a b.
Proof.
  unfold lt, le. rewrite leb_false, leb_spec.
  intros [L | [E L]]; [now left | right]. split; [lia | now apply Qlt_le_weak].
Qed.

Lemma le_or_lt (a b : double) : le a b \/ lt b a.
Proof. unfold le, lt. destruct (leb a b); auto. Qed.

Lemma lt_not_le (a b : double) : lt a b <-> ~ le b a.
Proof. unfold lt, le. now rewrite not_true_iff_false. Qed.

Lemma le_lt_trans (a b c : double) : le a b -> lt b c -> lt a c.
Proof.
  intros H1 H2. apply lt_not_le. intros H3. apply lt_not_le in H2.
  apply H2. now apply le_trans with a.
Qed.

Lemma lt_le_trans (a b c : double) : lt a b -> le b c -> lt a c.
Proof.
  intros H1 H2. apply lt_not_le. intros H3. apply lt_not_le in H1.
  apply H1. now apply le_trans with c.
Qed.

Lemma same_spec (a b : double) : same a b = true <-> le a b /\ le b a.
Proof. unfold same, le. apply andb_true_iff. Qed.





Lemma pow2_pos (e : Z) : 0 < 2 ^ e.
Proof. apply Qpower_0_lt. reflexivity. Qed.

Lemma iter_xO (m d : positive) :
  Zpos (Pos.iter xO m d) = (Zpos m * 2 ^ Zpos d)%Z.
Proof.
  induction d as [|d IH] using Pos.peano_ind.
  - simpl. lia.
  - rewrite Pos.iter_succ, Pos2Z.inj_xO, IH, Pos2Z.inj_succ, Z.pow_succ_r; lia.
Qed.

Lemma cond_Zopp_mul (s : bool) (a b : Z) :
  cond_Zopp s (a * b) = (cond_Zopp s a * b)%Z.
Proof. destruct s; simpl; lia. Qed.

(** Aligning a mantissa to a lower exponent does not change the
    number. *)
Lemma shl_align_real (s : bool) (m : positive) (e ez : Z) :
  (ez <= e)%Z ->
  inject_Z (cond_Zopp s (Zpos (fst (shl_align m e ez)))) * 2 ^ ez
  == real (S754_finite s m e).
Proof.
  intros H. unfold shl_align, real.
  destruct (ez - e)%Z as [|d|d] eqn:Ed; cbn [fst].
  - assert (ez = e) as -> by lia. reflexivity.
  - lia.
  - rewrite iter_xO, cond_Zopp_mul, inject_Z_mult, Zpower_Qpower by lia.
    assert (e = (Zpos d + ez)%Z) as -> by lia.
    rewrite Qpower_plus by discriminate.
    change (inject_Z 2) with 2. ring.
Qed.

Lemma real_sign (s : bool) (m : positive) (e : Z) :
  if s then real (S754_finite s m e) < 0 else 0 < real (S754_finite s m e).
Proof.
  pose proof (pow2_pos e) as H. unfold real.
  destruct s; cbn [cond_Zopp].
  - assert (inject_Z (- Zpos m) < 0) as Hm by reflexivity.
    setoid_replace 0 with (0 * 2 ^ e) by ring.
    apply Qmult_lt_compat_r; assumption.
  - assert (0 < inject_Z (Zpos m)) as Hm by reflexivity.
    setoid_replace 0 with (0 * 2 ^ e) at 1 by ring.
    apply Qmult_lt_compat_r; assumption.
Qed.

End Order.

Section Comparator.
Local Open Scope Z_scope.
Import Binary64.
Local Open Scope Q_scope.

Lemma leb_finite (a b : double) :
  side a = 0%Z -> side b = 0%Z -> leb a b = Qle_bool (real a) (real b).
Proof. unfold leb. now intros -> ->. Qed.

Lemma Qle_bool_neg (x : Q) : x < 0 -> Qle_bool x 0 = true /\ Qle_bool 0 x = false.
Proof.
  intros H. split.
  - apply Qle_bool_iff. now apply Qlt_le_weak.
  - apply not_true_iff_false. rewrite Qle_bool_iff. now apply Qlt_not_le.
Qed.

Lemma Qle_bool_pos (x : Q) : 0 < x -> Qle_bool x 0 = false /\ Qle_bool 0 x = true.
Proof.
  intros H. split.
  - apply not_true_iff_false. rewrite Qle_bool_iff. now apply Qlt_not_le.
  - apply Qle_bool_iff. now apply Qlt_le_weak.
Qed.

Lemma leb_finite_zero (s s' : bool) (m : positive) (e : Z) :
  leb (S754_finite s m e) (S754_zero s') = s
  /\ leb (S754_zero s') (S754_finite s m e) = negb s.
Proof.
  rewrite !leb_finite by reflexivity.
  pose proof (real_sign s m e) as H. cbn [real] in *.
  destruct s; [now apply Qle_bool_neg | now apply Qle_bool_pos].
Qed.

Lemma finite_difference (sa sb : bool) (ma mb : positive) (ea eb : Z) :
  let ez := Z.min eb ea in
  inject_Z (cond_Zopp sb (Zpos (fst (shl_align mb eb ez)))
            - cond_Zopp sa (Zpos (fst (shl_align ma ea ez)))) * 2 ^ ez
  == real (S754_finite sb mb eb) - real (S754_finite sa ma ea).
Proof.
  intros ez.
  rewrite <- (shl_align_real sb mb eb ez), <- (shl_align_real sa ma ea ez)
    by (unfold ez; lia).
  unfold Z.sub. rewrite inject_Z_plus, inject_Z_opp. ring.
Qed.

(** The sign of a computed difference is the sign of the difference:
    [b - a] is positive exactly when [a] is less than [b]. *)
Lemma sub_positive (a b : double) :
  numeric a -> numeric b -> on_grid a -> on_grid b ->
  is_positive (sub b a) = negb (leb b a).
Proof.
  intros Na Nb Ga Gb.
  destruct a as [sa|sa| |sa ma ea]; [| |now elim Na|];
    (destruct b as [sb|sb| |sb mb eb]; [| |now elim Nb|]);
    try (destruct sa, sb; reflexivity).
  - destruct (leb_finite_zero sb sa mb eb) as [-> _]. now destruct sb.
  - destruct (leb_finite_zero sa sb ma ea) as [_ ->]. now destruct sa.
  - cbn [on_grid] in Ga, Gb. rewrite emin_value in Ga, Gb.
    pose proof (finite_difference sa sb ma mb ea eb) as Hd. cbv zeta in Hd.
    pose proof (pow2_pos (Z.min eb ea)) as Hp.
    unfold sub, SFsub. cbv zeta.
    rewrite leb_finite by reflexivity.
    destruct (cond_Zopp sb (Zpos (fst (shl_align mb eb (Z.min eb ea))))
              - cond_Zopp sa (Zpos (fst (shl_align ma ea (Z.min eb ea)))))%Z
      as [|p|p]; cbn [binary_normalize].
    + assert (real (S754_finite sb mb eb) <= real (S754_finite sa ma ea)) as H.
      { setoid_replace (inject_Z 0 * 2 ^ Z.min eb ea) with 0 in Hd by ring. lra. }
      apply Qle_bool_iff in H. now rewrite H.
    + assert (0 < inject_Z (Zpos p) * 2 ^ Z.min eb ea) as H.
      { setoid_replace 0 with (0 * 2 ^ Z.min eb ea) at 1 by ring.
        apply Qmult_lt_compat_r; [exact Hp | reflexivity]. }
      assert (Qle_bool (real (S754_finite sb mb eb)) (real (S754_finite sa ma ea))
              = false) as ->.
      { apply not_true_iff_false. rewrite Qle_bool_iff. lra. }
      destruct (binary_round_positive false p (Z.min eb ea))
        as [[m' [e' [-> _]]] | ->]; [lia | reflexivity | reflexivity].
    + assert (inject_Z (Zneg p) * 2 ^ Z.min eb ea < 0) as H.
      { setoid_replace 0 with (0 * 2 ^ Z.min eb ea) by ring.
        apply Qmult_lt_compat_r; [exact Hp | reflexivity]. }
      assert (Qle_bool (real (S754_finite sb mb eb)) (real (S754_finite sa ma ea))
              = true) as ->.
      { apply Qle_bool_iff. lra. }
      destruct (binary_round_positive true p (Z.min eb ea))
        as [[m' [e' [-> _]]] | ->]; [lia | reflexivity | reflexivity].
Qed.

End Comparator.

Section Sorting64.
Local Open Scope Z_scope.
Import Binary64.
Local Open Scope list_scope.

Lemma insert_perm64 {A : Type} (f : A -> A -> double) (x : A) (l : list A) :
  Permutation (insert f x l) (x :: l).
Proof.
  induction l as [|y l IH]; simpl; [reflexivity|].
  destruct (is_positive (f x y)); [|reflexivity].
  rewrite IH. apply perm_swap.
Qed.

Lemma sort_perm64 {A : Type} (f : A -> A -> double) (l : list A) :
  Permutation (sort f l) l.
Proof.
  induction l as [|x l IH]; simpl; [reflexivity|].
  unfold sort in *. simpl. rewrite insert_perm64. now constructor.
Qed.

Lemma sort_nonempty64 {A : Type} (f : A -> A -> double) (l : list A) :
  l <> [] -> sort f l <> [].
Proof.
  intros Hl Hs. apply Hl. apply Permutation_nil.
  rewrite <- Hs. apply sort_perm64.
Qed.

Lemma sort_cons {A : Type} (f : A -> A -> double) (x : A) (l : list A) :
  sort f (x :: l) = insert f x (sort f l).
Proof. reflexivity. Qed.

(** The comparator sends [x] behind [y] exactly when the score of [x] is
    the smaller number. *)
Lemma by_score_positive (x y : Scored) :
  numeric (score x) -> numeric (score y) ->
  on_grid (score x) -> on_grid (score y) ->
  is_positive (by_score x y) = true <-> lt (score x) (score y).
Proof.
  intros Nx Ny Gx Gy. unfold by_score, lt.
  rewrite (sub_positive (score x) (score y) Nx Ny Gx Gy).
  now rewrite negb_true_iff.
Qed.

Lemma by_score_not_positive (x y : Scored) :
  numeric (score x) -> numeric (score y) ->
  on_grid (score x) -> on_grid (score y) ->
  is_positive (by_score x y) = false <-> le (score y) (score x).
Proof.
  intros Nx Ny Gx Gy. unfold by_score, le.
  rewrite (sub_positive (score x) (score y) Nx Ny Gx Gy).
  now rewrite negb_false_iff.
Qed.

Lemma numeric_scores_cons (x : Scored) (l : list Scored) :
  numeric_scores (x :: l) <-> numeric (score x) /\ numeric_scores l.
Proof.
  unfold numeric_scores. split.
  - intros H. split; [apply H; now left | intros y Hy; apply H; now right].
  - intros [Hx Hl] y [<- | Hy]; auto.
Qed.

Lemma on_grid_scores_cons (x : Scored) (l : list Scored) :
  on_grid_scores (x :: l) <-> on_grid (score x) /\ on_grid_scores l.
Proof.
  unfold on_grid_scores. split.
  - intros H. split; [apply H; now left | intros y Hy; apply H; now right].
  - intros [Hx Hl] y [<- | Hy]; auto.
Qed.

Lemma numeric_scores_perm (l l' : list Scored) :
  Permutation l l' -> numeric_scores l -> numeric_scores l'.
Proof.
  intros Hp H x Hx. apply H. now apply (Permutation_in _ (Permutation_sym Hp)).
Qed.

Lemma on_grid_scores_perm (l l' : list Scored) :
  Permutation l l' -> on_grid_scores l -> on_grid_scores l'.
Proof.
  intros Hp H x Hx. apply H. now apply (Permutation_in _ (Permutation_sym Hp)).
Qed.

Lemma insert_descending64 (x : Scored) (l : list Scored) :
  numeric_scores (x :: l) -> on_grid_scores (x :: l) ->
  descending l -> descending (insert by_score x l).
Proof.
  unfold descending. intros Hn Hg Hd. revert Hn Hg.
  induction Hd as [|y l Hl IH Hy]; intros Hn Hg; simpl.
  - repeat constructor.
  - apply numeric_scores_cons in Hn as [Nx Hn].
    apply on_grid_scores_cons in Hg as [Gx Hg].
    pose proof (proj1 (numeric_scores_cons y l) Hn) as [Ny Hn'].
    pose proof (proj1 (on_grid_scores_cons y l) Hg) as [Gy Hg'].
    destruct (is_positive (by_score x y)) eqn:E.
    + apply (by_score_positive x y Nx Ny Gx Gy) in E.
      constructor.
      * apply IH; [now apply numeric_scores_cons | now apply on_grid_scores_cons].
      * rewrite Forall_forall in *. intros z Hz.
        apply (Permutation_in _ (insert_perm64 by_score x l)) in Hz.
        destruct Hz as [<- | Hz]; [now apply lt_le | now apply Hy].
    + apply (by_score_not_positive x y Nx Ny Gx Gy) in E.
      constructor; [now constructor|].
      constructor; [exact E|].
      rewrite Forall_forall in *. intros z Hz.
      apply le_trans with (score y); [now apply Hy | exact E].
Qed.

Lemma sort_descending64 (l : list Scored) :
  numeric_scores l -> on_grid_scores l -> descending (sort by_score l).
Proof.
  induction l as [|x l IH]; intros Hn Hg; [constructor|].
  rewrite sort_cons.
  pose proof (proj1 (numeric_scores_cons x l) Hn) as [Nx Hn'].
  pose proof (proj1 (on_grid_scores_cons x l) Hg) as [Gx Hg'].
  apply insert_descending64; [| |now apply IH].
  - apply numeric_scores_cons. split; [exact Nx|].
    now apply (numeric_scores_perm l), Hn'; [apply Permutation_sym, sort_perm64].
  - apply on_grid_scores_cons. split; [exact Gx|].
    now apply (on_grid_scores_perm l), Hg'; [apply Permutation_sym, sort_perm64].
Qed.



Lemma descending_head64 (x : Scored) (l : list Scored) :
  descending (x :: l) ->
  descending l /\ forall y, In y (x :: l) -> le (score y) (score x).
Proof.
  intros H. apply StronglySorted_inv in H as [Hl Hx]. split; [exact Hl|].
  rewrite Forall_forall in Hx. intros y [<- | Hy]; [apply le_refl | now apply Hx].
Qed.

(** The first element of the sorted list sits, in the unsorted list,
    behind strictly smaller scores only and in front of scores that are
    not larger. *)
Lemma sort_head64 (l : list Scored) (top : Scored) (rest : list Scored) :
  numeric_scores l -> on_grid_scores l ->
  sort by_score l = top :: rest ->
  exists before after,
    l = before ++ top :: after
    /\ (forall x, In x before -> lt (score x) (score top))
    /\ (forall x, In x after -> le (score x) (score top)).
Proof.
  revert top rest. induction l as [|x l IH]; intros top rest Hn Hg;
    [discriminate|].
  pose proof (proj1 (numeric_scores_cons x l) Hn) as [Nx Hn'].
  pose proof (proj1 (on_grid_scores_cons x l) Hg) as [Gx Hg'].
  rewrite sort_cons.
  destruct (sort by_score l) as [|top' rest'] eqn:Es.
  - assert (l = []) as ->.
    { apply Permutation_nil. rewrite <- Es. apply sort_perm64. }
    simpl. intros [= <- <-]. exists [], []. repeat split; intros ? [].
  - assert (In top' l) as Ht.
    { apply (Permutation_in _ (sort_perm64 by_score l)). rewrite Es. now left. }
    cbn [insert]. destruct (is_positive (by_score x top')) eqn:E.
    + apply (by_score_positive x top' Nx (Hn' _ Ht) Gx (Hg' _ Ht)) in E.
      intros [= <- <-].
      destruct (IH top' rest' Hn' Hg' eq_refl) as [before [after [-> [Hb Ha]]]].
      exists (x :: before), after. repeat split; [|exact Ha].
      intros z [<- | Hz]; [exact E | now apply Hb].
    + apply (by_score_not_positive x top' Nx (Hn' _ Ht) Gx (Hg' _ Ht)) in E.
      intros [= <- <-].
      exists [], l. repeat split; [intros ? [] |].
      intros z Hz.
      pose proof (sort_descending64 l Hn' Hg') as Hd. rewrite Es in Hd.
      apply descending_head64 in Hd as [_ Hd].
      apply le_trans with (score top'); [|exact E].
      apply Hd. rewrite <- Es.
      now apply (Permutation_in _ (Permutation_sym (sort_perm64 by_score l))).
Qed.




End Sorting64.

(** ** Scores of candidates with ordinary ratings are numbers *)

Section NotNaN.
Local Open Scope Z_scope.

Lemma shr_1_nonneg (mrs : shr_record) : 0 <= shr_m mrs -> 0 <= shr_m (shr_1 mrs).
Proof.
  destruct mrs as [m r s]. cbn [shr_m]. intros H.
  destruct m as [|[p|p|]|p]; cbn [shr_1 shr_m]; lia.
Qed.

Lemma shr_fexp_nonneg (m e : Z) (l : location) :
  0 <= m -> 0 <= shr_m (fst (shr_fexp Binary64.prec Binary64.emax m e l)).
Proof.
  intros H. unfold shr_fexp, shr.
  destruct (fexp Binary64.prec Binary64.emax (Zdigits2 m + e) - e) as [|k|k];
    cbn [fst]; try (now rewrite shr_m_of_loc).
  rewrite iter_pos_nat. apply Nat.iter_invariant; [apply shr_1_nonneg|].
  now rewrite shr_m_of_loc.
Qed.

Lemma round_nearest_even_nonneg (m : Z) (l : location) :
  0 <= m -> 0 <= round_nearest_even m l.
Proof.
  intros H. destruct l as [|[]]; cbn [round_nearest_even]; try lia.
  destruct (Z.even m); lia.
Qed.

(** Rounding a mantissa that is not negative never gives NaN, and gives
    the sign that was asked for. *)
Lemma binary_round_aux_sign (s : bool) (m e : Z) (l : location) :
  0 <= m ->
  match binary_round_aux Binary64.prec Binary64.emax s m e l with
  | S754_zero s' | S754_infinity s' | S754_finite s' _ _ => s' = s
  | S754_nan => False
  end.
Proof.
  intros H. unfold binary_round_aux.
  pose proof (shr_fexp_nonneg m e l H) as H1.
  destruct (shr_fexp Binary64.prec Binary64.emax m e l) as [mrs1 e1].
  cbn [fst] in H1.
  pose proof (shr_fexp_nonneg _ e1 loc_Exact
                (round_nearest_even_nonneg (shr_m mrs1)
                                           (loc_of_shr_record mrs1) H1)) as H2.
  destruct (shr_fexp Binary64.prec Binary64.emax _ e1 loc_Exact) as [mrs2 e2].
  cbn [fst] in H2.
  destruct (shr_m mrs2) as [|p|p]; [reflexivity | | lia].
  now destruct (e2 <=? Binary64.emax - Binary64.prec).
Qed.

Lemma div_core_nonneg (m1 m2 : positive) (e1 e2 : Z) :
  0 <= fst (fst (SFdiv_core_binary Binary64.prec Binary64.emax
                                   (Zpos m1) e1 (Zpos m2) e2)).
Proof.
  unfold SFdiv_core_binary. cbv zeta.
  set (s := e1 - e2 - _).
  set (m' := match s with Z0 => Zpos m1 | Zpos _ => Z.shiftl (Zpos m1) s
                     | Zneg _ => 0 end).
  assert (0 <= m') as Hm.
  { unfold m'. destruct s; try lia. apply Z.shiftl_nonneg. lia. }
  pose proof (Z_div_mod m' (Zpos m2) eq_refl) as Hd.
  destruct (Z.div_eucl m' (Zpos m2)) as [q r]. cbn [fst].
  destruct Hd as [Hq Hr]. nia.
Qed.

Lemma div_not_negative (x : Binary64.double) (s : bool) (m : positive) (e : Z) :
  Binary64.not_negative x ->
  Binary64.not_negative (Binary64.div x (S754_finite false m e)).
Proof.
  destruct x as [sx|sx| |sx mx ex]; intros Hx;
    [exact I | now destruct sx | now elim Hx |].
  destruct sx; [now elim Hx|].
  unfold Binary64.div, SFdiv.
  pose proof (div_core_nonneg mx m ex e) as H.
  destruct (SFdiv_core_binary _ _ _ _ _ _) as [[mz ez] lz]. cbn [fst] in H.
  pose proof (binary_round_aux_sign (xorb false false) mz ez lz H) as Hs.
  destruct (binary_round_aux _ _ _ _ _ _) as [s'|s'| |s' m' e'];
    cbn [xorb] in Hs; subst; try exact I. contradiction.
Qed.

Lemma mul_not_negative (x : Binary64.double) (m : positive) (e : Z) :
  Binary64.not_negative x ->
  Binary64.not_negative (Binary64.mul x (S754_finite false m e)).
Proof.
  destruct x as [sx|sx| |sx mx ex]; intros Hx;
    [exact I | now destruct sx | now elim Hx |].
  destruct sx; [now elim Hx|].
  unfold Binary64.mul, SFmul.
  pose proof (binary_round_aux_sign (xorb false false) (Zpos (mx * m)) (ex + e)
                                    loc_Exact (Pos2Z.is_nonneg _)) as Hs.
  destruct (binary_round_aux _ _ _ _ _ _) as [s'|s'| |s' m' e'];
    cbn [xorb] in Hs; subst; try exact I. contradiction.
Qed.

Lemma add_not_negative (a b : Binary64.double) :
  Binary64.not_negative a -> Binary64.not_negative b ->
  Binary64.on_grid a -> Binary64.on_grid b ->
  Binary64.not_negative (Binary64.add a b).
Proof.
  intros Ha Hb Ga Gb.
  destruct a as [sa|sa| |sa ma ea]; [| | now elim Ha |];
    (destruct b as [sb|sb| |sb mb eb]; [| | now elim Hb |]);
    try (destruct sa; [now elim Ha|]); try (destruct sb; [now elim Hb|]);
    try exact I.
  - now destruct sa, sb.
  - cbn [Binary64.on_grid] in Ga, Gb. rewrite emin_value in Ga, Gb.
    unfold Binary64.add, SFadd. cbv zeta. cbn [cond_Zopp Z.add binary_normalize].
    destruct (binary_round_positive false
                (fst (shl_align ma ea (Z.min ea eb))
                 + fst (shl_align mb eb (Z.min ea eb))) (Z.min ea eb))
      as [[m' [e' [-> _]]] | ->]; [lia | exact I | exact I].
Qed.

Lemma parse_not_negative (q : Q) :
  (0 <= q)%Q -> Binary64.not_negative (Binary64.parse q).
Proof.
  intros H. unfold Binary64.parse.
  assert (0 <= Qnum q) as Hn.
  { unfold Qle in H. simpl in H. lia. }
  destruct (Qnum q) as [|n|n]; [exact I | | lia].
  cbn [Binary64.exact_integer].
  apply (div_not_negative (S754_finite false n 0) false). exact I.
Qed.

Lemma or_num_not_negative (o : option Q) :
  Binary64.rating_not_negative o ->
  Binary64.not_negative (Binary64.or_num o Binary64.zero).
Proof.
  destruct o as [q|]; cbn [Binary64.rating_not_negative Binary64.or_num];
    [|intros _; exact I].
  intros H. destruct (Binary64.falsy (Binary64.parse q)); [exact I|].
  now apply parse_not_negative.
Qed.

Lemma not_negative_numeric (x : Binary64.double) :
  Binary64.not_negative x -> Binary64.numeric x.
Proof. intros H ->. exact H. Qed.

(** The score of a candidate whose [ratingsCount] and [averageRating] are
    absent or not negative is zero or more, or plus infinity: not NaN. *)
Lemma score_of_not_negative (query : string) (b : Book) :
  Binary64.rating_not_negative (ratingsCount (volumeInfo b)) ->
  Binary64.rating_not_negative (averageRating (volumeInfo b)) ->
  Binary64.not_negative (Binary64.score_of query b).
Proof.
  intros Hc Hr. unfold Binary64.score_of. cbv zeta.
  assert (Binary64.not_negative
            (Binary64.div (Binary64.or_num (ratingsCount (volumeInfo b))
                                           Binary64.zero)
                          Binary64.hundred)) as H1.
  { apply (div_not_negative _ false), or_num_not_negative, Hc. }
  assert (Binary64.not_negative
            (Binary64.mul (Binary64.or_num (averageRating (volumeInfo b))
                                           Binary64.zero)
                          Binary64.five)) as H2.
  { apply mul_not_negative, or_num_not_negative, Hr. }
  repeat match goal with
         | |- context [if ?c then _ else _] => destruct c
         end;
  repeat match goal with
         | |- Binary64.not_negative (Binary64.add _ _) => apply add_not_negative
         | |- Binary64.on_grid (Binary64.add _ _) => apply add_on_grid
         | |- Binary64.on_grid (Binary64.mul _ _) => apply mul_on_grid
         | |- Binary64.on_grid (Binary64.div _ _) => apply div_on_grid
         | |- Binary64.not_negative (Binary64.div _ _) => exact H1
         | |- Binary64.not_negative (Binary64.mul _ _) => exact H2
         | |- Binary64.on_grid _ => first [exact I | apply parse_on_grid]
         | |- Binary64.not_negative _ => exact I
         end.
Qed.

Lemma score_of_numeric (query : string) (b : Book) :
  Binary64.rating_not_negative (ratingsCount (volumeInfo b)) ->
  Binary64.rating_not_negative (averageRating (volumeInfo b)) ->
  Binary64.numeric (Binary64.score_of query b).
Proof. intros Hc Hr. now apply not_negative_numeric, score_of_not_negative. Qed.

End NotNaN.
(** ** The built-ins on concrete inputs *)

Example toLowerCase_dune : JS.toLowerCase "  Dune MESSIAH " = "  dune messiah ".
Proof. reflexivity. Qed.

Example trim_dune : JS.trim "  Dune Messiah   " = "Dune Messiah".
Proof. reflexivity. Qed.

Example encode_foo_by_bar :
  JS.encodeURIComponent "Foo by Bar, Baz & Co." = "Foo%20by%20Bar%2C%20Baz%20%26%20Co.".
Proof. reflexivity. Qed.

Example number_to_string_examples :
  JS.number_to_string 10 = "10" /\ JS.number_to_string 0 = "0"
  /\ JS.number_to_string (-3) = "-3".
Proof. repeat split. Qed.

Example encode_latin1 :
  JS.encodeURIComponent (String (ascii_of_N 233) "t" ++ String (ascii_of_N 233) "")
  = "%C3%A9t%C3%A9".
Proof. reflexivity. Qed.

Example lower_latin1 :
  JS.toLowerCase (String (ascii_of_N 201) "T" ++ String (ascii_of_N 215) "")
  = String (ascii_of_N 233) "t" ++ String (ascii_of_N 215) "".
Proof. reflexivity. Qed.

Example includes_examples :
  JS.includes "dune messiah" "dune" = true
  /\ JS.includes "dune" "dune messiah" = false
  /\ JS.includes "" "" = true
  /\ JS.includes "a:b" ":" = true.
Proof. repeat split. Qed.

Example match_digits_hyphens_examples :
  JS.match_digits_hyphens "978-0-441-01359-3" = true
  /\ JS.match_digits_hyphens "" = false
  /\ JS.match_digits_hyphens "978 0" = false
  /\ JS.match_digits_hyphens "---" = true.
Proof. repeat split. Qed.

Example remove_hyphens_isbn :
  JS.remove_hyphens "978-0-441-01359-3" = "9780441013593".
Proof. reflexivity. Qed.

(** [parse] on decimal literals: 0.1 is 0x3FB999999999999A, 47.62 has the
    mantissa 6701919195480719; a literal beyond the range is an infinity,
    one below it is zero, and 5e-324 is the least positive number. *)
Example parse_examples :
  Binary64.parse 0.1 = S754_finite false 7205759403792794 (-56)
  /\ Binary64.parse 47.62 = S754_finite false 6701919195480719 (-47)
  /\ Binary64.parse (-3.5) = S754_finite true 7881299347898368 (-51)
  /\ Binary64.parse 10 = S754_finite false 5629499534213120 (-49)
  /\ Binary64.parse 0 = S754_zero false
  /\ Binary64.parse (inject_Z (10 ^ 400)) = S754_infinity false
  /\ Binary64.parse (5 # 10 ^ 324) = S754_finite false 1 (-1074)
  /\ Binary64.parse (2 # 10 ^ 324) = S754_zero false
  /\ Binary64.add (Binary64.parse 0.1) (Binary64.parse 0.2)
     = S754_finite false 5404319552844596 (-54)
  /\ Binary64.parse 0.3 = S754_finite false 5404319552844595 (-54).
Proof. repeat split; vm_compute; reflexivity. Qed.

(** ** Scoring (lines 127-157) *)

Section Scoring.
Local Open Scope Q_scope.

Lemma truthy_filled (o : option string) : truthy o = Spec.filled o.
Proof. reflexivity. Qed.



Lemma exact_comparison_sym (query t : string) :
  (trim (toLowerCase query) =? trim (toLowerCase t))%string
  = Spec.same_title query t.
Proof. unfold Spec.same_title. apply String.eqb_sym. Qed.

(** The score of an item of the scored list is the score of its own
    book, whatever else the list holds. *)
Lemma scored_pointwise (query : string) (results : list Book) (item : Scored) :
  In item (scored query results) ->
  score item = score_of query (book item) /\ In (book item) results.
Proof.
  unfold scored. rewrite in_map_iff. intros [b [<- Hb]]. now split.
Qed.

Lemma scored_books (query : string) (results : list Book) :
  map book (scored query results) = results.
Proof.
  unfold scored. rewrite map_map. simpl. apply map_id.
Qed.


(** The accumulation of lines 128-151 adds up to the guarded sum. *)
Lemma score_of_accumulated (query : string) (b : Book) :
  score_of query b == Spec.guarded_score query b.
Proof.
  unfold score_of, Spec.guarded_score, Spec.title_bonus, Spec.bonus.
  rewrite exact_comparison_sym. change truthy with Spec.filled.
  fold (Spec.contains_queryb query (title (volumeInfo b))).
  pose proof (or_num_zero (ratingsCount (volumeInfo b))) as Hc.
  pose proof (or_num_zero (averageRating (volumeInfo b))) as Hr.
  destruct (title (volumeInfo b) =? "")%string; cbn [negb andb];
    destruct (Spec.same_title query (title (volumeInfo b)));
    destruct (Spec.contains_queryb query (title (volumeInfo b)));
    destruct (Spec.filled (description (volumeInfo b)));
    destruct (Spec.filled (thumbnail_of (volumeInfo b)));
    destruct (has_identifiers (volumeInfo b));
    cbv zeta; rewrite Hc, Hr; field.
Qed.

End Scoring.



Example score_of_untitled :
  (score_of " " Samples.untitled == 10)%Q
  /\ (Spec.claimed_score " " Samples.untitled == 60)%Q.
Proof. split; reflexivity. Qed.

(** An empty description or thumbnail earns nothing (lines 149-150). *)
Example score_of_empty_strings :
  (score_of "Dune" Samples.dune_blank == 60)%Q
  /\ (Spec.claimed_score "Dune" Samples.dune_blank == 70)%Q
  /\ (Spec.guarded_score "Dune" Samples.dune_blank == 60)%Q.
Proof. repeat split; vm_compute; reflexivity. Qed.

(** Where the title, the description and the thumbnail are not empty
    strings, the score is the sum of C1 as it is stated. *)
Lemma score_of_claimed_sum (query : string) (b : Book) :
  title (volumeInfo b) <> "" ->
  description (volumeInfo b) <> Some "" ->
  thumbnail_of (volumeInfo b) <> Some "" ->
  (score_of query b == Spec.claimed_score query b)%Q.
Proof.
  intros Ht Hd Hi.
  rewrite score_of_accumulated.
  unfold Spec.guarded_score, Spec.claimed_score.
  destruct (String.eqb_spec (title (volumeInfo b)) "") as [E | _]; [now elim Ht|].
  assert (forall o, o <> Some "" -> Spec.filled o = Spec.present o) as F.
  { intros [s|] Ho; [|reflexivity]. simpl.
    destruct (String.eqb_spec s "") as [-> | _]; [now elim Ho | reflexivity]. }
  rewrite !F by assumption. reflexivity.
Qed.

(** The title search of the specification's scenarios: the exact match
    scores 92.5, the two partial matches 50.1 and 45.05.  The exact test
    trims the query, the partial test does not. *)
Example score_of_dune :
  (score_of "Dune" Samples.dune == 92.5)%Q
  /\ (score_of "Dune" Samples.dune_messiah == 50.1)%Q
  /\ (score_of "Dune" Samples.dune_italian == 45.05)%Q
  /\ (score_of "dune " Samples.dune == 92.5)%Q
  /\ (score_of " dune" Samples.dune_messiah == 30.1)%Q
  /\ (score_of "Hyperion" Samples.hyperion == 97.5)%Q.
Proof. repeat split; vm_compute; reflexivity. Qed.

(** ** Filtering and ranking (lines 159-186) *)

Section Ranking.
Local Open Scope Q_scope.
Local Open Scope list_scope.

Lemma filter_nonempty_existsb {A : Type} (p : A -> bool) (l : list A) :
  (0 <? List.length (filter p l))%nat = existsb p l.
Proof.
  induction l as [|x l IH]; simpl; [reflexivity|].
  destruct (p x); simpl; [reflexivity | exact IH].
Qed.

Lemma length_zero_nil {A : Type} (l : list A) :
  (List.length l =? 0)%nat = true <-> l = [].
Proof. destruct l; simpl; split; congruence. Qed.

(** *** The three steps when [scoredResults] can be written to *)

Lemma filter_rating_let (minRating : Q) (l : list Scored) :
  filter_rating Let minRating l = Return (Spec.after_rating minRating l).
Proof.
  unfold filter_rating, Spec.after_rating.
  now destruct (Qle_bool minRating 0).
Qed.

Lemma filter_exact_let (flag : bool) (query : string) (l : list Scored) :
  filter_exact Let flag query l = Return (Spec.after_exact flag query l).
Proof.
  unfold filter_exact, Spec.after_exact.
  destruct flag; [|reflexivity].
  now destruct (filter (exact query) l).
Qed.

Lemma revert_if_empty_let (results : list Book) (l : list Scored) :
  revert_if_empty Let results l
  = Return (match l with
            | [] => unscored results
            | item :: more => item :: more
            end).
Proof. now destruct l. Qed.

Lemma working_set_let (query : string) (options : SearchOptions)
      (results : list Book) :
  working_set Let query options results
  = Return (match Spec.filtered query options results with
            | [] => unscored results
            | item :: more => item :: more
            end).
Proof.
  unfold working_set, Spec.filtered.
  rewrite filter_rating_let. cbn [bind].
  rewrite filter_exact_let. cbn [bind].
  apply revert_if_empty_let.
Qed.

(** *** The three steps on the [const] that line 127 declares *)

Lemma filter_rating_const (minRating : Q) (l : list Scored) :
  filter_rating Const minRating l
  = if Qle_bool minRating 0 then Return l else Throw const_assignment.
Proof. unfold filter_rating. now destruct (Qle_bool minRating 0). Qed.

Lemma filter_exact_const (flag : bool) (query : string) (l : list Scored) :
  filter_exact Const flag query l
  = if flag && existsb (exact query) l then Throw const_assignment
    else Return l.
Proof.
  unfold filter_exact. destruct flag; [|reflexivity].
  cbv zeta. rewrite filter_nonempty_existsb.
  now destruct (existsb (exact query) l).
Qed.

Lemma working_set_const (query : string) (options : SearchOptions)
      (first : Book) (more : list Book) :
  working_set Const query options (first :: more)
  = if Qle_bool (default (minRating options) 0) 0
    then if default (exactTitleMatch options) false
            && existsb (exact query) (scored query (first :: more))
         then Throw const_assignment
         else Return (scored query (first :: more))
    else Throw const_assignment.
Proof.
  unfold working_set. rewrite filter_rating_const.
  destruct (Qle_bool (default (minRating options) 0) 0); [|reflexivity].
  cbn [bind]. rewrite filter_exact_const.
  now destruct (default (exactTitleMatch options) false
                && existsb (exact query) (scored query (first :: more))).
Qed.

(** *** What the working set is made of *)

Lemma filter_all {A : Type} (p : A -> bool) (l : list A) :
  (forall x, p x = true) -> filter p l = l.
Proof.
  intros H. induction l as [|x l IH]; simpl; [reflexivity|].
  now rewrite H, IH.
Qed.

Lemma after_rating_filter (minRating : Q) (l : list Scored) :
  Spec.after_rating minRating l
  = filter (fun x => Qle_bool minRating 0 || rated minRating x) l.
Proof.
  unfold Spec.after_rating. destruct (Qle_bool minRating 0); simpl.
  - symmetry. now apply filter_all.
  - reflexivity.
Qed.

Lemma after_exact_filter (flag : bool) (query : string) (l : list Scored) :
  Spec.after_exact flag query l
  = filter (fun x => negb (flag && existsb (exact query) l) || exact query x) l.
Proof.
  unfold Spec.after_exact. destruct flag; simpl.
  - rewrite <- filter_nonempty_existsb.
    destruct (filter (exact query) l) as [|m ms] eqn:E; simpl.
    + symmetry. now apply filter_all.
    + now rewrite <- E.
  - symmetry. now apply filter_all.
Qed.

Lemma filter_filter {A : Type} (p q : A -> bool) (l : list A) :
  filter p (filter q l) = filter (fun x => q x && p x) l.
Proof.
  induction l as [|x l IH]; simpl; [reflexivity|].
  destruct (q x); simpl; [destruct (p x)|]; now rewrite IH.
Qed.

(** The filtered set selects items of the scored list, in provider
    order and with their scores. *)
Lemma filtered_selection (query : string) (options : SearchOptions)
      (results : list Book) :
  exists keep : Scored -> bool,
    Spec.filtered query options results = filter keep (scored query results).
Proof.
  unfold Spec.filtered. rewrite after_exact_filter, after_rating_filter.
  rewrite filter_filter. eexists. reflexivity.
Qed.

Lemma filter_none {A : Type} (p : A -> bool) (l : list A) :
  filter p l = [] <-> forall x, In x l -> p x = false.
Proof.
  induction l as [|x l IH]; simpl.
  - split; [intros _ ? [] | reflexivity].
  - destruct (p x) eqn:E.
    + split; [discriminate|]. intros H. specialize (H x (or_introl eq_refl)).
      congruence.
    + rewrite IH. split.
      * intros H y [<- | Hy]; auto.
      * intros H y Hy. apply H. now right.
Qed.

(** The exact-title filter never empties a set: the filtered set is
    empty only when the rating filter ran and let nothing through. *)
Lemma filtered_empty (query : string) (options : SearchOptions)
      (results : list Book) :
  results <> [] ->
  Spec.filtered query options results = [] ->
  0 < default (minRating options) 0
  /\ forall b, In b results ->
               or_num (averageRating (volumeInfo b)) 0
               < default (minRating options) 0.
Proof.
  intros Hr. unfold Spec.filtered, Spec.after_exact, Spec.after_rating.
  set (m := default (minRating options) 0).
  assert (scored query results <> []) as Hs.
  { destruct results; [now elim Hr | discriminate]. }
  assert (forall l : list Scored,
             (if default (exactTitleMatch options) false
              then match filter (exact query) l with
                   | [] => l
                   | x :: xs => x :: xs
                   end
              else l) = [] -> l = []) as He.
  { intros l. destruct (default (exactTitleMatch options) false); [|auto].
    destruct (filter (exact query) l); [auto | discriminate]. }
  intros H. apply He in H.
  destruct (Qle_bool m 0) eqn:Em; [contradiction|].
  apply Qle_bool_false in Em. split; [exact Em|].
  intros b Hb. rewrite filter_none in H.
  specialize (H {| book := b; score := score_of query b |}).
  apply Qle_bool_false, H. unfold scored.
  apply (in_map (fun c => {| book := c; score := score_of query c |})), Hb.
Qed.

(** *** Sorting a list of equal scores *)

Lemma sort_unscored (results : list Book) :
  JS.sort by_score (unscored results) = unscored results.
Proof.
  induction results as [|b results IH]; [reflexivity|].
  change (JS.sort by_score (unscored (b :: results)))
    with (JS.insert by_score {| book := b; score := 0 |}
                    (JS.sort by_score (unscored results))).
  rewrite IH. destruct results; reflexivity.
Qed.

(** *** [search] in terms of the working set *)

Lemma search_with_unfold (d : declaration) (got : string -> completion Body)
      (query : string) (options : SearchOptions) (body : Body)
      (first : Book) (more : list Book) :
  got (search_url query options) = Return body ->
  items body = Some (first :: more) ->
  search_with d got query options
  = (ws <- working_set d query options (first :: more) ;;
     match JS.sort by_score ws with
     | [] => Throw undefined_access
     | top :: _ => Return (normalize_search (book top))
     end).
Proof.
  intros Hg Hi. unfold search_with, ranked. rewrite Hg. cbn [bind].
  rewrite Hi. now destruct (working_set d query options (first :: more)).
Qed.

Lemma working_set_nonempty (d : declaration) (query : string)
      (options : SearchOptions) (first : Book) (more : list Book)
      (ws : list Scored) :
  working_set d query options (first :: more) = Return ws -> ws <> [].
Proof.
  destruct d.
  - rewrite working_set_const.
    destruct (Qle_bool _ _); [|discriminate].
    destruct (_ && _); [discriminate|]. intros [= <-]. discriminate.
  - rewrite working_set_let.
    destruct (Spec.filtered query options (first :: more));
      intros [= <-]; discriminate.
Qed.

Lemma working_set_throws (d : declaration) (query : string)
      (options : SearchOptions) (results : list Book) (e : exn) :
  working_set d query options results = Throw e ->
  d = Const /\ e = const_assignment.
Proof.
  destruct d.
  - intros H. split; [reflexivity|]. revert H.
    unfold working_set. rewrite filter_rating_const.
    destruct (Qle_bool _ _); cbn [bind]; [|now intros [= <-]].
    rewrite filter_exact_const.
    destruct (_ && _); cbn [bind]; [now intros [= <-]|].
    unfold revert_if_empty. destruct (_ =? _)%nat; [|discriminate].
    now intros [= <-].
  - rewrite working_set_let. discriminate.
Qed.

(** With the default options nothing is assigned to [scoredResults]. *)
Lemma working_set_unfiltered (d : declaration) (query : string)
      (options : SearchOptions) (first : Book) (more : list Book) :
  Qle_bool (default (minRating options) 0) 0 = true ->
  default (exactTitleMatch options) false = false ->
  working_set d query options (first :: more)
  = Return (scored query (first :: more)).
Proof.
  intros Hm He. unfold working_set, filter_rating, filter_exact.
  rewrite Hm, He. reflexivity.
Qed.

End Ranking.

Section Outcome.
Local Open Scope list_scope.

Variable got : string -> completion Body.
Variables (query : string) (options : SearchOptions).
Variables (body : Body) (first : Book) (more : list Book).
Hypothesis response : got (search_url query options) = Return body.
Hypothesis candidates : items body = Some (first :: more).

(** The working set selects candidates in provider order, each with a
    score that depends on the candidate alone. *)
Lemma working_set_selection (d : declaration) (ws : list Scored) :
  working_set d query options (first :: more) = Return ws ->
  exists (keep : Scored -> bool) (points : Book -> Q),
    ws = filter keep
                (map (fun b => {| book := b; score := points b |})
                     (first :: more)).
Proof.
  assert (forall (points : Book -> Q) l,
             exists keep : Scored -> bool,
               map (fun b => {| book := b; score := points b |}) l
               = filter keep
                        (map (fun b => {| book := b; score := points b |}) l))
    as Hall.
  { intros points l. exists (fun _ => true). symmetry. now apply filter_all. }
  destruct d.
  - rewrite working_set_const.
    destruct (Qle_bool _ _); [|discriminate].
    destruct (_ && _); [discriminate|]. intros [= <-].
    destruct (Hall (score_of query) (first :: more)) as [keep H].
    now exists keep, (score_of query).
  - rewrite working_set_let.
    destruct (Spec.filtered query options (first :: more)) as [|x xs] eqn:E;
      intros [= <-].
    + destruct (Hall (fun _ => 0%Q) (first :: more)) as [keep H].
      now exists keep, (fun _ => 0%Q).
    + destruct (filtered_selection query options (first :: more)) as [keep H].
      exists keep, (score_of query). now rewrite <- E, H.
Qed.

(** Once the working set is there, [search] returns. *)
Lemma search_with_returns (d : declaration) (ws : list Scored) :
  working_set d query options (first :: more) = Return ws ->
  exists top rest,
    JS.sort by_score ws = top :: rest
    /\ search_with d got query options = Return (normalize_search (book top)).
Proof.
  intros Hw.
  rewrite (search_with_unfold d got query options body first more response
                              candidates), Hw.
  cbn [bind].
  destruct (JS.sort by_score ws) as [|top rest] eqn:Es.
  - exfalso. apply (sort_nonempty by_score ws); [|exact Es].
    now apply (working_set_nonempty d query options first more).
  - now exists top, rest.
Qed.

(** With a variable that can be written to, [search] returns for every
    non-empty response. *)
Lemma search_let_returns :
  exists result, search_with Let got query options = Return result.
Proof.
  destruct (search_with_returns Let _ (working_set_let query options _))
    as [top [rest [_ H]]].
  eexists. exact H.
Qed.

(** ... and when the filters leave nothing it returns the provider's
    first candidate: all scores are 0 and the sort moves nothing. *)
Lemma search_let_fallback :
  Spec.filtered query options (first :: more) = [] ->
  working_set Let query options (first :: more)
  = Return (unscored (first :: more))
  /\ search_with Let got query options = Return (normalize_search first).
Proof.
  intros E.
  assert (working_set Let query options (first :: more)
          = Return (unscored (first :: more))) as Hw.
  { now rewrite working_set_let, E. }
  split; [exact Hw|].
  rewrite (search_with_unfold Let got query options body first more response
                              candidates), Hw.
  cbn [bind]. now rewrite sort_unscored.
Qed.

(** On the [const] of line 127, a positive [minRating] makes line 161
    throw, and so does an exact match under [exactTitleMatch] at line
    173. *)
Lemma search_const_rating_throws :
  (0 < default (minRating options) 0)%Q ->
  search got query options = Throw const_assignment.
Proof.
  intros Hm. unfold search.
  rewrite (search_with_unfold Const got query options body first more
                              response candidates), working_set_const.
  apply Qle_bool_false in Hm. now rewrite Hm.
Qed.

Lemma search_const_exact_throws :
  default (exactTitleMatch options) false = true ->
  existsb (exact query) (scored query (first :: more)) = true ->
  search got query options = Throw const_assignment.
Proof.
  intros He Hx. unfold search.
  rewrite (search_with_unfold Const got query options body first more
                              response candidates), working_set_const.
  rewrite He, Hx. now destruct (Qle_bool _ _).
Qed.

(** Neither declaration turns a non-empty response into NotFound. *)
Lemma search_with_found (d : declaration) :
  search_with d got query options <> Throw book_not_found.
Proof.
  destruct (working_set d query options (first :: more)) as [e|ws] eqn:Hw.
  - rewrite (search_with_unfold d got query options body first more response
                                candidates), Hw.
    apply working_set_throws in Hw as [_ ->]. discriminate.
  - destruct (search_with_returns d ws Hw) as [top [rest [_ ->]]].
    discriminate.
Qed.

End Outcome.

Section NoCandidates.

Variable got : string -> completion Body.
Variable body : Body.

Lemma search_with_not_found (d : declaration) (query : string)
      (options : SearchOptions) :
  got (search_url query options) = Return body ->
  Spec.no_candidates body ->
  search_with d got query options = Throw book_not_found.
Proof.
  intros Hg Hn. unfold search_with. rewrite Hg. cbn [bind].
  now destruct Hn as [-> | ->].
Qed.

Lemma searchByIsbn_not_found (isbn : string) :
  got (isbn_url (remove_hyphens isbn)) = Return body ->
  Spec.no_candidates body ->
  searchByIsbn got isbn = Throw (isbn_not_found isbn).
Proof.
  intros Hg Hn. unfold searchByIsbn. cbv zeta. rewrite Hg. cbn [bind].
  now destruct Hn as [-> | ->].
Qed.

Lemma searchByIsbn_found (isbn : string) (first : Book) (more : list Book) :
  got (isbn_url (remove_hyphens isbn)) = Return body ->
  items body = Some (first :: more) ->
  searchByIsbn got isbn = Return (normalize_isbn first).
Proof.
  intros Hg Hi. unfold searchByIsbn. cbv zeta. rewrite Hg. cbn [bind].
  now rewrite Hi.
Qed.

Lemma candidates_or_none :
  Spec.no_candidates body
  \/ exists first more, items body = Some (first :: more).
Proof.
  unfold Spec.no_candidates. destruct (items body) as [[|first more]|].
  - left. now right.
  - right. now exists first, more.
  - left. now left.
Qed.

End NoCandidates.

(** ** The working set on binary64 scores *)

Section WorkingSet64.
Local Open Scope list_scope.

Lemma selection_all (points : Book -> Binary64.double) (results : list Book) :
  Binary64.selection points results
    (map (fun b => {| Binary64.book := b; Binary64.score := points b |}) results).
Proof. exists (fun _ => true). symmetry. now apply filter_all. Qed.

Lemma selection_filter (points : Book -> Binary64.double) (results : list Book)
      (p : Binary64.Scored -> bool) (ws : list Binary64.Scored) :
  Binary64.selection points results ws ->
  Binary64.selection points results (filter p ws).
Proof.
  intros [keep ->]. rewrite filter_filter. now eexists.
Qed.

Lemma selection_scores (points : Book -> Binary64.double) (results : list Book)
      (ws : list Binary64.Scored) (x : Binary64.Scored) :
  Binary64.selection points results ws -> In x ws ->
  Binary64.score x = points (Binary64.book x) /\ In (Binary64.book x) results.
Proof.
  intros [keep ->] Hx. apply filter_In in Hx as [Hx _].
  apply in_map_iff in Hx as [b [<- Hb]]. now split.
Qed.

Lemma assign_return {A : Type} (d : declaration) (rhs v : A) :
  assign d rhs = Return v -> d = Let /\ v = rhs.
Proof. destruct d; [discriminate | now intros [= <-]]. Qed.

Lemma assign_throw {A : Type} (d : declaration) (rhs : A) (e : exn) :
  assign d rhs = Throw e -> d = Const /\ e = const_assignment.
Proof. destruct d; [now intros [= <-] | discriminate]. Qed.

(** What each of the three steps can hand on. *)
Lemma filter_rating_return (d : declaration) (m : Binary64.double)
      (l l' : list Binary64.Scored) :
  Binary64.filter_rating d m l = Return l' ->
  (Binary64.is_positive m = false /\ l' = l)
  \/ (Binary64.is_positive m = true /\ d = Let
      /\ l' = filter (Binary64.rated m) l).
Proof.
  unfold Binary64.filter_rating. destruct (Binary64.is_positive m).
  - intros H. apply assign_return in H as [-> ->]. now right.
  - intros [= <-]. now left.
Qed.

Lemma filter_exact_return (d : declaration) (flag : bool) (query : string)
      (l l' : list Binary64.Scored) :
  Binary64.filter_exact d flag query l = Return l' ->
  l' = l
  \/ (flag = true /\ d = Let /\ l' = filter (Binary64.exact query) l
      /\ l' <> []).
Proof.
  unfold Binary64.filter_exact. destruct flag; [|intros [= <-]; now left].
  cbv zeta. destruct (filter (Binary64.exact query) l) as [|m ms] eqn:E;
    cbn [List.length Nat.ltb Nat.leb].
  - intros [= <-]. now left.
  - intros H. apply assign_return in H as [-> ->]. right.
    repeat split. discriminate.
Qed.

Lemma revert_if_empty_return (d : declaration) (results : list Book)
      (l l' : list Binary64.Scored) :
  Binary64.revert_if_empty d results l = Return l' ->
  (l <> [] /\ l' = l)
  \/ (l = [] /\ d = Let /\ l' = Binary64.unscored results).
Proof.
  unfold Binary64.revert_if_empty. destruct l as [|x l]; cbn [List.length Nat.eqb].
  - intros H. apply assign_return in H as [-> ->]. now right.
  - intros [= <-]. left. split; [discriminate | reflexivity].
Qed.

Lemma working_set_steps (d : declaration) (query : string)
      (options : SearchOptions) (results : list Book)
      (ws : list Binary64.Scored) :
  Binary64.working_set d query options results = Return ws ->
  exists l1 l2,
    Binary64.filter_rating d (Binary64.minRating_of options)
                           (Binary64.scored query results) = Return l1
    /\ Binary64.filter_exact d (default (exactTitleMatch options) false)
                             query l1 = Return l2
    /\ Binary64.revert_if_empty d results l2 = Return ws.
Proof.
  unfold Binary64.working_set. cbv zeta.
  destruct (Binary64.filter_rating d _ _) as [e|l1] eqn:H1; [discriminate|].
  cbn [bind].
  destruct (Binary64.filter_exact d _ query l1) as [e|l2] eqn:H2; [discriminate|].
  cbn [bind]. intros H. exists l1, l2. now repeat split.
Qed.

(** The working set selects candidates in provider order, with their
    scores or, after the fallback, with score 0. *)
Lemma working_set_selection64 (d : declaration) (query : string)
      (options : SearchOptions) (results : list Book)
      (ws : list Binary64.Scored) :
  Binary64.working_set d query options results = Return ws ->
  Binary64.selection (Binary64.score_of query) results ws
  \/ Binary64.selection (fun _ => Binary64.zero) results ws.
Proof.
  intros H. destruct (working_set_steps _ _ _ _ _ H) as [l1 [l2 [H1 [H2 H3]]]].
  assert (Binary64.selection (Binary64.score_of query) results l1) as S1.
  { apply filter_rating_return in H1 as [[_ ->] | [_ [_ ->]]].
    - apply selection_all.
    - apply selection_filter, selection_all. }
  assert (Binary64.selection (Binary64.score_of query) results l2) as S2.
  { apply filter_exact_return in H2 as [-> | [_ [_ [-> _]]]];
      [exact S1 | now apply selection_filter]. }
  apply revert_if_empty_return in H3 as [[_ ->] | [_ [_ ->]]].
  - now left.
  - right. apply selection_all.
Qed.

Lemma working_set_nonempty64 (d : declaration) (query : string)
      (options : SearchOptions) (first : Book) (more : list Book)
      (ws : list Binary64.Scored) :
  Binary64.working_set d query options (first :: more) = Return ws -> ws <> [].
Proof.
  intros H. destruct (working_set_steps _ _ _ _ _ H) as [l1 [l2 [_ [_ H3]]]].
  apply revert_if_empty_return in H3 as [[Hn ->] | [_ [_ ->]]];
    [exact Hn | discriminate].
Qed.

Lemma working_set_throws64 (d : declaration) (query : string)
      (options : SearchOptions) (results : list Book) (e : exn) :
  Binary64.working_set d query options results = Throw e ->
  d = Const /\ e = const_assignment.
Proof.
  unfold Binary64.working_set. cbv zeta.
  destruct (Binary64.filter_rating d _ _) as [e1|l1] eqn:H1.
  { cbn [bind]. intros [= <-]. revert H1. unfold Binary64.filter_rating.
    destruct (Binary64.is_positive _); [apply assign_throw | discriminate]. }
  cbn [bind].
  destruct (Binary64.filter_exact d _ query l1) as [e2|l2] eqn:H2.
  { cbn [bind]. intros [= <-]. revert H2. unfold Binary64.filter_exact.
    destruct (default _ _); [|discriminate]. cbv zeta.
    destruct (0 <? _)%nat; [apply assign_throw | discriminate]. }
  cbn [bind]. unfold Binary64.revert_if_empty.
  destruct (_ =? _)%nat; [apply assign_throw | discriminate].
Qed.

(** On the [const] that line 127 declares the working set is never
    replaced: it is the scored list or the call has thrown. *)
Lemma working_set_const64 (query : string) (options : SearchOptions)
      (first : Book) (more : list Book) (ws : list Binary64.Scored) :
  Binary64.working_set Const query options (first :: more) = Return ws ->
  ws = Binary64.scored query (first :: more).
Proof.
  intros H. destruct (working_set_steps _ _ _ _ _ H) as [l1 [l2 [H1 [H2 H3]]]].
  apply filter_rating_return in H1 as [[_ ->] | [_ [D _]]]; [|discriminate].
  apply filter_exact_return in H2 as [-> | [_ [D _]]]; [|discriminate].
  apply revert_if_empty_return in H3 as [[_ ->] | [_ [D _]]];
    [reflexivity | discriminate].
Qed.


Lemma search_with_unfold64 (d : declaration) (got : string -> completion Body)
      (query : string) (options : SearchOptions) (body : Body)
      (first : Book) (more : list Book) :
  got (search_url query options) = Return body ->
  items body = Some (first :: more) ->
  Binary64.search_with d got query options
  = (ws <- Binary64.working_set d query options (first :: more) ;;
     match Binary64.sort Binary64.by_score ws with
     | [] => Throw undefined_access
     | top :: _ => Return (normalize_search (Binary64.book top))
     end).
Proof.
  intros Hg Hi. unfold Binary64.search_with, Binary64.ranked.
  rewrite Hg. cbn [bind]. rewrite Hi.
  now destruct (Binary64.working_set d query options (first :: more)).
Qed.

(** Once the working set is there, [search] returns. *)
Lemma search_with_returns64 (d : declaration) (got : string -> completion Body)
      (query : string) (options : SearchOptions) (body : Body)
      (first : Book) (more : list Book) (ws : list Binary64.Scored) :
  got (search_url query options) = Return body ->
  items body = Some (first :: more) ->
  Binary64.working_set d query options (first :: more) = Return ws ->
  exists top rest,
    Binary64.sort Binary64.by_score ws = top :: rest
    /\ Binary64.search_with d got query options
       = Return (normalize_search (Binary64.book top)).
Proof.
  intros Hg Hi Hw.
  rewrite (search_with_unfold64 d got query options body first more Hg Hi), Hw.
  cbn [bind].
  destruct (Binary64.sort Binary64.by_score ws) as [|top rest] eqn:Es.
  - exfalso. apply (sort_nonempty64 Binary64.by_score ws); [|exact Es].
    now apply (working_set_nonempty64 d query options first more).
  - now exists top, rest.
Qed.

(** What a returning [search] returns, in terms of the candidates. *)
Lemma search_const_result64 (got : string -> completion Body) (query : string)
      (options : SearchOptions) (body : Body) (results : list Book)
      (result : BookResult) :
  got (search_url query options) = Return body ->
  items body = Some results ->
  (forall b, In b results -> Binary64.numeric (Binary64.score_of query b)) ->
  Binary64.search got query options = Return result ->
  exists before top after,
    results = before ++ top :: after
    /\ result = normalize_search top
    /\ (forall b, In b before ->
                  Binary64.lt (Binary64.score_of query b)
                              (Binary64.score_of query top))
    /\ (forall b, In b after ->
                  Binary64.le (Binary64.score_of query b)
                              (Binary64.score_of query top)).
Proof.
  intros Hg Hi Hn H.
  destruct results as [|first more].
  { unfold Binary64.search, Binary64.search_with in H.
    rewrite Hg in H. cbn [bind] in H. rewrite Hi in H. discriminate. }
  unfold Binary64.search in H.
  rewrite (search_with_unfold64 Const got query options body first more Hg Hi)
    in H.
  destruct (Binary64.working_set Const query options (first :: more))
    as [e|ws] eqn:Hw; [discriminate|].
  cbn [bind] in H. apply working_set_const64 in Hw as ->.
  set (l := Binary64.scored query (first :: more)) in *.
  assert (forall x, In x l ->
                    Binary64.score x = Binary64.score_of query (Binary64.book x)
                    /\ In (Binary64.book x) (first :: more)) as Hp.
  { intros x Hx. apply in_map_iff in Hx as [b [<- Hb]]. now split. }
  assert (Binary64.numeric_scores l) as Nl.
  { intros x Hx. destruct (Hp x Hx) as [-> Hb]. now apply Hn. }
  assert (Binary64.on_grid_scores l) as Gl.
  { intros x Hx. destruct (Hp x Hx) as [-> _]. apply score_of_on_grid. }
  destruct (Binary64.sort Binary64.by_score l) as [|top rest] eqn:Es;
    [discriminate|].
  injection H as <-.
  destruct (sort_head64 l top rest Nl Gl Es) as [before [after [Hl [Hb Ha]]]].
  assert (In top l) as Ht.
  { rewrite Hl. apply in_or_app. right. now left. }
  destruct (Hp top Ht) as [Et _].
  exists (map Binary64.book before), (Binary64.book top),
    (map Binary64.book after).
  repeat split.
  - assert (map Binary64.book l = first :: more) as <-.
    { unfold l, Binary64.scored. rewrite map_map. apply map_id. }
    now rewrite Hl, map_app.
  - intros b Hb'. apply in_map_iff in Hb' as [x [<- Hx]].
    rewrite <- Et. destruct (Hp x) as [<- _]; [|now apply Hb].
    rewrite Hl. apply in_or_app. now left.
  - intros b Ha'. apply in_map_iff in Ha' as [x [<- Hx]].
    rewrite <- Et. destruct (Hp x) as [<- _]; [|now apply Ha].
    rewrite Hl. apply in_or_app. right. now right.
Qed.

End WorkingSet64.

(** ** The claims on filtering, ranking and the outcome of [search] *)

(** C2, at an input on which the code departs from it.  The provider
    returns one candidate rated 3 and the caller asks for [minRating] 4:
    the rating filter leaves the working set empty, and the fallback of
    line 179 should hand back that candidate with score 0.  Line 161
    assigns to [scoredResults], which line 127 declared [const], so the
    call throws a [TypeError] before the fallback is reached.  With a
    [let] the call returns the candidate. *)
Theorem search_min_rating_throws :
  let options := Samples.min_rating 4 in
  let got := Samples.provider (search_url "Dune" options)
                              (Some [Samples.dune_italian]) in
  Spec.filtered "Dune" options [Samples.dune_italian] = []
  /\ search got "Dune" options = Throw const_assignment
  /\ search_with Let got "Dune" options
     = Return (normalize_search Samples.dune_italian).
Proof. repeat split. Qed.

(** C3, at an input on which the code departs from it.  With
    [exactTitleMatch] and one exact match among two candidates the
    working set should narrow to that match.  Line 173 assigns the
    matches to the [const] of line 127 and the call throws a
    [TypeError]; with a [let] the set narrows and the match is returned.
    Without an exact match nothing is assigned and the set is unchanged. *)
Theorem search_exact_title_throws :
  let got := Samples.provider (search_url "dune" Samples.exact_title)
                              (Some [Samples.dune_messiah; Samples.dune]) in
  filter (exact "dune") (scored "dune" [Samples.dune_messiah; Samples.dune])
  = [ {| book := Samples.dune; score := score_of "dune" Samples.dune |} ]
  /\ search got "dune" Samples.exact_title = Throw const_assignment
  /\ working_set Let "dune" Samples.exact_title
                 [Samples.dune_messiah; Samples.dune]
     = Return [ {| book := Samples.dune; score := score_of "dune" Samples.dune |} ]
  /\ search_with Let got "dune" Samples.exact_title
     = Return (normalize_search Samples.dune)
  /\ working_set Const "arrakis" Samples.exact_title
                 [Samples.dune_messiah; Samples.dune]
     = Return (scored "arrakis" [Samples.dune_messiah; Samples.dune]).
Proof. repeat split. Qed.

(** C5, at an input on which the code departs from it.  The provider
    returns three candidates, so the call should return one
    NormalizedBook.  With [minRating] 3 and [exactTitleMatch] the call
    throws the [TypeError] of the assignment at line 161: neither the
    NotFound error nor a result.  With a [let] the exact match is
    returned. *)
Theorem search_filters_throw :
  let options := Samples.exact_and_rated 3 in
  let candidates := [Samples.dune_italian; Samples.dune_messiah; Samples.dune] in
  let got := Samples.provider (search_url "Dune" options) (Some candidates) in
  search got "Dune" options = Throw const_assignment
  /\ ~ Spec.NotFound const_assignment
  /\ search_with Let got "Dune" options = Return (normalize_search Samples.dune).
Proof.
  repeat split.
  intros [H | [isbn H]]; discriminate.
Qed.

Example search_dune :
  let candidates := [Samples.dune_messiah; Samples.dune; Samples.dune_italian] in
  let got := Samples.provider (search_url "Dune" no_options) (Some candidates) in
  search got "Dune" no_options = Return (normalize_search Samples.dune)
  /\ map book (JS.sort by_score (scored "Dune" candidates))
     = [Samples.dune; Samples.dune_messiah; Samples.dune_italian].
Proof. split; reflexivity. Qed.

(** Equal scores: the provider's order decides. *)
Example search_tie :
  let candidates := [Samples.dune_italian; Samples.dune_messiah; Samples.dune] in
  let got := Samples.provider (search_url "1984" no_options) (Some candidates) in
  map book (JS.sort by_score (unscored candidates)) = candidates
  /\ search_with Let got "1984" (Samples.min_rating 5)
     = Return (normalize_search Samples.dune_italian).
Proof. split; reflexivity. Qed.

(** ** The claims on the sort and on the fallback *)



(** The scores of the specification's title search and of the two
    candidates above, as binary64 numbers: mantissa and exponent. *)
Example score_of_binary64 :
  Binary64.score_of "Dune" Samples.dune
  = S754_finite false 6509108836433920 (-46)
  /\ Binary64.score_of "Dune" messiah_12
     = S754_finite false 6701919195480719 (-47)
  /\ Binary64.score_of "Dune" saga_262
     = S754_finite false 6701919195480720 (-47)
  /\ Binary64.lt (Binary64.score_of "Dune" messiah_12)
                 (Binary64.score_of "Dune" saga_262)
  /\ (score_of "Dune" messiah_12 == score_of "Dune" saga_262)%Q.
Proof. repeat split; vm_compute; reflexivity. Qed.

Example search_dune_binary64 :
  let candidates := [Samples.dune_messiah; Samples.dune; Samples.dune_italian] in
  let got := Samples.provider (search_url "Dune" no_options) (Some candidates) in
  Binary64.search got "Dune" no_options = Return (normalize_search Samples.dune)
  /\ map Binary64.book
         (Binary64.sort Binary64.by_score (Binary64.scored "Dune" candidates))
     = [Samples.dune; Samples.dune_messiah; Samples.dune_italian].
Proof. split; vm_compute; reflexivity. Qed.

(** C10, at an input on which the code departs from it.  Both candidates
    are rated below the [minRating] of 5, so the rating filter empties the
    working set and the fallback of line 179 should restore the two
    candidates with score 0 for the read of [scoredResults[0]].  The
    filter result is assigned at line 161 to the [const] of line 127: the
    call throws a [TypeError] and the fallback, itself an assignment to
    that [const], never restores anything.  With a [let] the set is
    restored and the first candidate returned. *)
Theorem fallback_never_restores :
  let options := Samples.min_rating 5 in
  let candidates := [Samples.dune_messiah; Samples.dune_italian] in
  let got := Samples.provider (search_url "Dune" options) (Some candidates) in
  filter (Binary64.rated (Binary64.minRating_of options))
         (Binary64.scored "Dune" candidates) = []
  /\ Binary64.working_set Const "Dune" options candidates
     = Throw const_assignment
  /\ Binary64.search got "Dune" options = Throw const_assignment
  /\ Binary64.working_set Let "Dune" options candidates
     = Return (Binary64.unscored candidates)
  /\ Binary64.search_with Let got "Dune" options
     = Return (normalize_search Samples.dune_messiah).
Proof. repeat split; vm_compute; reflexivity. Qed.

(** Whatever the declaration, a working set that reaches the sort is not
    empty, and [search] does not fail on reading its first element. *)
Lemma search_reads_first_element
      (d : declaration) (got : string -> completion Body) (query : string)
      (options : SearchOptions) (body : Body) (first : Book)
      (more : list Book) :
  got (search_url query options) = Return body ->
  items body = Some (first :: more) ->
  Binary64.search_with d got query options <> Throw undefined_access.
Proof.
  intros Hg Hi.
  destruct (Binary64.working_set d query options (first :: more))
    as [e|ws] eqn:Hw.
  - rewrite (search_with_unfold64 d got query options body first more Hg Hi), Hw.
    apply working_set_throws64 in Hw as [_ ->]. discriminate.
  - destruct (search_with_returns64 d got query options body first more ws
                                    Hg Hi Hw) as [top [rest [_ ->]]].
    discriminate.
Qed.

(** Candidates whose ratings are absent or not negative make a working
    set without NaN. *)
Lemma working_set_numeric
      (d : declaration) (query : string) (options : SearchOptions)
      (results : list Book) (ws : list Binary64.Scored) :
  (forall b, In b results ->
             Binary64.rating_not_negative (ratingsCount (volumeInfo b))
             /\ Binary64.rating_not_negative (averageRating (volumeInfo b))) ->
  Binary64.working_set d query options results = Return ws ->
  Binary64.numeric_scores ws.
Proof.
  intros Hr Hw x Hx.
  destruct (working_set_selection64 d query options results ws Hw) as [S | S];
    destruct (selection_scores _ _ _ _ S Hx) as [-> Hb].
  - destruct (Hr _ Hb). now apply score_of_numeric.
  - discriminate.
Qed.

(** The failing inputs of C2, C3 and C5 throw in binary64 arithmetic as
    they do in exact arithmetic. *)
Example search_throws_binary64 :
  Binary64.search
    (Samples.provider (search_url "Dune" (Samples.min_rating 4))
                      (Some [Samples.dune_italian]))
    "Dune" (Samples.min_rating 4) = Throw const_assignment
  /\ Binary64.search
       (Samples.provider (search_url "dune" Samples.exact_title)
                         (Some [Samples.dune_messiah; Samples.dune]))
       "dune" Samples.exact_title = Throw const_assignment
  /\ Binary64.search
       (Samples.provider
          (search_url "Dune" (Samples.exact_and_rated 3))
          (Some [Samples.dune_italian; Samples.dune_messiah; Samples.dune]))
       "Dune" (Samples.exact_and_rated 3) = Throw const_assignment.
Proof. repeat split; vm_compute; reflexivity. Qed.

(** ** The ISBN lookup, the request and the normalisation *)

Section Normalisation.
Local Open Scope list_scope.

Lemma or_str_default (o : option string) :
  or_str o "" = match o with Some s => s | None => "" end.
Proof.
  destruct o as [s|]; simpl; [|reflexivity].
  now destruct (String.eqb_spec s "").
Qed.

(** [find] followed by [.identifier] yields the identifier of the first
    entry of the wanted type. *)
Lemma find_identifier_first (t : string) (l : list IndustryIdentifier)
      (i : string) :
  find_identifier t l = Some i <->
  exists before x after,
    l = before ++ x :: after
    /\ type x = t /\ identifier x = i
    /\ forall y, In y before -> type y <> t.
Proof.
  unfold find_identifier. induction l as [|y l IH]; simpl.
  - split; [discriminate|].
    intros [before [x [after [H _]]]]. now destruct before.
  - destruct (String.eqb_spec (type y) t) as [E | E].
    + split.
      * intros [= <-]. exists [], y, l. repeat split; [exact E | intros ? []].
      * intros [before [x [after [H [Ht [Hi Hb]]]]]].
        destruct before as [|z before]; simpl in H.
        -- injection H as -> ->. now rewrite Hi.
        -- injection H as <- ->. elim (Hb y (or_introl eq_refl)). exact E.
    + rewrite IH. split.
      * intros [before [x [after [-> [Ht [Hi Hb]]]]]].
        exists (y :: before), x, after. repeat split; try assumption.
        intros z [<- | Hz]; [exact E | now apply Hb].
      * intros [before [x [after [H [Ht [Hi Hb]]]]]].
        destruct before as [|z before]; simpl in H.
        -- injection H as -> ->. now elim E.
        -- injection H as <- ->.
           exists before, x, after. repeat split; try assumption.
           intros w Hw. apply Hb. now right.
Qed.

Lemma find_identifier_none (t : string) (l : list IndustryIdentifier) :
  find_identifier t l = None <-> forall y, In y l -> type y <> t.
Proof.
  unfold find_identifier. induction l as [|y l IH]; simpl.
  - split; [intros _ ? [] | reflexivity].
  - destruct (String.eqb_spec (type y) t) as [E | E].
    + split; [discriminate|]. intros H. now elim (H y (or_introl eq_refl)).
    + rewrite IH. split.
      * intros H z [<- | Hz]; auto.
      * intros H z Hz. apply H. now right.
Qed.

Lemma sort_singleton {A : Type} (f : A -> A -> Q) (x : A) :
  JS.sort f [x] = [x].
Proof. reflexivity. Qed.

End Normalisation.

(** C6.  [searchByIsbn] removes every hyphen of its argument and nothing
    else, asks the provider for [isbn:] followed by the cleaned string,
    and returns the normalisation of the first candidate of the response
    whatever the other candidates are: the returned book carries the
    title, the provider id and every other property of the first
    candidate, with the defaults and the image fallback of the
    normalisation.  Without candidates it throws the error whose message
    quotes the argument as the caller gave it; a failure of the request is
    passed on. *)
Theorem searchByIsbn_first_candidate
        (got : string -> completion Body) (isbn : string) :
  Spec.chars (remove_hyphens isbn)
  = filter (fun c => negb (c =? "-")%char) (Spec.chars isbn)
  /\ includes (remove_hyphens isbn) "-" = false
  /\ searchByIsbn got isbn
     = match got ("https://www.googleapis.com/books/v1/volumes?q=isbn:"
                  ++ remove_hyphens isbn) with
       | Throw e => Throw e
       | Return body =>
           match items body with
           | Some (first :: _) => Return (normalize_isbn first)
           | Some [] | None =>
               Throw (Error ("Book with ISBN " ++ isbn ++ " not found"))
           end
       end
  /\ (forall body first rest,
         got ("https://www.googleapis.com/books/v1/volumes?q=isbn:"
              ++ remove_hyphens isbn) = Return body ->
         items body = Some (first :: rest) ->
         exists result,
           searchByIsbn got isbn = Return result
           /\ r_title result = title (volumeInfo first)
           /\ gb_id (googleBooks result) = id first
           /\ r_authors result
              = match authors (volumeInfo first) with
                | Some l => l
                | None => []
                end
           /\ r_publisher result
              = match publisher (volumeInfo first) with
                | Some s => s
                | None => ""
                end
           /\ r_publishedDate result
              = match publishedDate (volumeInfo first) with
                | Some s => s
                | None => ""
                end
           /\ r_description result
              = match description (volumeInfo first) with
                | Some s => s
                | None => ""
                end
           /\ r_language result
              = match language (volumeInfo first) with
                | Some s => s
                | None => ""
                end
           /\ r_categories result
              = match categories (volumeInfo first) with
                | Some l => l
                | None => []
                end
           /\ (r_averageRating result
               == Spec.or_zero (averageRating (volumeInfo first)))%Q
           /\ (r_ratingsCount result
               == Spec.or_zero (ratingsCount (volumeInfo first)))%Q
           /\ (r_pageCount result
               == Spec.or_zero (pageCount (volumeInfo first)))%Q
           /\ image result
              = (let fallback :=
                   "https://tse2.mm.bing.net/th?q="
                   ++ encodeURIComponent
                        (title (volumeInfo first) ++ " by "
                         ++ join ", " (match authors (volumeInfo first) with
                                       | Some l => l
                                       | None => []
                                       end))
                   ++ "&w=256&c=7&rs=1&p=0&dpr=3&pid=1.7&mkt=en-IN&adlt=moderate" in
                 match imageLinks (volumeInfo first) with
                 | Some {| thumbnail := Some t |} =>
                     if (t =? "")%string then fallback else t
                 | _ => fallback
                 end)
           /\ isbn10 result
              = match find (fun i => (type i =? "ISBN_10")%string)
                           (match industryIdentifiers (volumeInfo first) with
                            | Some l => l
                            | None => []
                            end) with
                | Some i => Some (identifier i)
                | None => None
                end
           /\ isbn13 result
              = match find (fun i => (type i =? "ISBN_13")%string)
                           (match industryIdentifiers (volumeInfo first) with
                            | Some l => l
                            | None => []
                            end) with
                | Some i => Some (identifier i)
                | None => None
                end
           /\ preview (googleBooks result)
              = match previewLink (volumeInfo first) with
                | Some s => s
                | None => ""
                end
           /\ info (googleBooks result)
              = match infoLink (volumeInfo first) with
                | Some s => s
                | None => ""
                end
           /\ canonical (googleBooks result)
              = match canonicalVolumeLink (volumeInfo first) with
                | Some s => s
                | None => ""
                end).
Proof.
  split; [apply remove_hyphens_chars|].
  split; [apply remove_hyphens_includes|].
  split.
  { unfold searchByIsbn. cbv zeta.
    change (isbn_url (remove_hyphens isbn))
      with ("https://www.googleapis.com/books/v1/volumes?q=isbn:"
            ++ remove_hyphens isbn).
    destruct (got _) as [e|body]; [reflexivity|]. cbn [bind].
    now destruct (items body) as [[|first more]|]. }
  intros body first rest Hg Hi.
  exists (normalize_isbn first). split.
  { now apply (searchByIsbn_found got body isbn first rest). }
  cbn [normalize_isbn r_title googleBooks gb_id r_authors r_publisher
       r_publishedDate r_description r_language r_categories r_averageRating
       r_ratingsCount r_pageCount image isbn10 isbn13 preview info canonical].
  rewrite !or_str_default.
  repeat split; try apply or_num_zero.
  cbv zeta. unfold or_list.
  destruct (imageLinks (volumeInfo first)) as [[[t|]]|]; reflexivity.
Qed.

Example searchByIsbn_dune :
  let url := "https://www.googleapis.com/books/v1/volumes?q=isbn:9780441013593" in
  searchByIsbn (Samples.provider url (Some [Samples.dune_italian; Samples.dune]))
               "978-0-441-01359-3"
  = Return (normalize_isbn Samples.dune_italian)
  /\ searchByIsbn (Samples.provider url (Some [])) "978-0-441-01359-3"
     = Throw (Error "Book with ISBN 978-0-441-01359-3 not found")
  /\ searchByIsbn (Samples.provider url None) "978-0-441-01359-3"
     = Throw (Error "Book with ISBN 978-0-441-01359-3 not found")
  /\ searchByIsbn (Samples.provider url (Some [Samples.dune])) "9780441013593-"
     = Return (normalize_isbn Samples.dune).
Proof. repeat split. Qed.

(** C7.  A candidate without a provider thumbnail gets as its image the
    fallback URL: the fixed address, the URL-encoded text of the title,
    [" by "] and the authors joined with [", "], and the fixed
    parameters, among them width 256, the moderate adult filter and the
    en-IN market.  The image of every normalised book, from either
    operation, is a non-empty string. *)
Theorem image_fallback (b : Book) :
  (thumbnail_of (volumeInfo b) = None ->
   image (normalize_search b)
   = "https://tse2.mm.bing.net/th?q="
     ++ encodeURIComponent
          (title (volumeInfo b) ++ " by "
           ++ join ", " (or_list (authors (volumeInfo b))))
     ++ "&w=256&c=7&rs=1&p=0&dpr=3&pid=1.7&mkt=en-IN&adlt=moderate")
  /\ image (normalize_search b) <> ""
  /\ image (normalize_isbn b) = image (normalize_search b)
  /\ includes image_suffix "&w=256&" = true
  /\ includes image_suffix "&adlt=moderate" = true
  /\ includes image_suffix "&mkt=en-IN&" = true.
Proof.
  split; [|split; [|repeat split]].
  - intros H. cbn [normalize_search image]. now rewrite H.
  - cbn [normalize_search image]. apply or_str_nonempty. discriminate.
Qed.

Lemma image_fallback_witness :
  thumbnail_of (volumeInfo Samples.foo) = None
  /\ image (normalize_search Samples.foo)
     = "https://tse2.mm.bing.net/th?q=Foo%20by%20Bar&w=256&c=7&rs=1&p=0&dpr=3&pid=1.7&mkt=en-IN&adlt=moderate".
Proof.
  split; [reflexivity|].
  destruct (image_fallback Samples.foo) as [H _].
  rewrite (H eq_refl). reflexivity.
Defined.

(** An empty thumbnail counts as none; a non-empty one is kept. *)
Lemma image_of_thumbnail (b : Book) :
  (truthy (thumbnail_of (volumeInfo b)) = false ->
   image (normalize_search b)
   = image_prefix
     ++ encodeURIComponent
          (title (volumeInfo b) ++ " by "
           ++ join ", " (or_list (authors (volumeInfo b))))
     ++ image_suffix)
  /\ (truthy (thumbnail_of (volumeInfo b)) = true ->
      Some (image (normalize_search b)) = thumbnail_of (volumeInfo b)).
Proof.
  split; intros H; cbn [normalize_search image].
  - now apply or_str_falsy.
  - now apply or_str_truthy.
Qed.

Example image_examples :
  image (normalize_search Samples.hyperion) = "http://books.example/h.jpg"
  /\ image (normalize_search Samples.dune)
     = "https://tse2.mm.bing.net/th?q=Dune%20by%20&w=256&c=7&rs=1&p=0&dpr=3&pid=1.7&mkt=en-IN&adlt=moderate".
Proof. split; reflexivity. Qed.

(** C9.  The object built at the end of [search] and the object built at
    the end of [searchByIsbn] are the same function of the candidate.
    Absent strings become the empty string, absent numbers 0, absent
    lists the empty list; [isbn10] and [isbn13] are the identifiers of
    the first entries of type ISBN_10 and ISBN_13, if any; and for one
    and the same single candidate both operations return the same
    book. *)
Theorem normalize_shared (b : Book) :
  normalize_search b = normalize_isbn b
  /\ r_authors (normalize_search b)
     = match authors (volumeInfo b) with Some l => l | None => [] end
  /\ r_publisher (normalize_search b)
     = match publisher (volumeInfo b) with Some s => s | None => "" end
  /\ r_description (normalize_search b)
     = match description (volumeInfo b) with Some s => s | None => "" end
  /\ (r_averageRating (normalize_search b)
      == Spec.or_zero (averageRating (volumeInfo b)))%Q
  /\ (r_pageCount (normalize_search b)
      == Spec.or_zero (pageCount (volumeInfo b)))%Q
  /\ (forall i,
         isbn10 (normalize_search b) = Some i <->
         exists before x after,
           or_list (industryIdentifiers (volumeInfo b))
           = (before ++ x :: after)%list
           /\ type x = "ISBN_10" /\ identifier x = i
           /\ forall y, In y before -> type y <> "ISBN_10")
  /\ (forall i,
         isbn13 (normalize_search b) = Some i <->
         exists before x after,
           or_list (industryIdentifiers (volumeInfo b))
           = (before ++ x :: after)%list
           /\ type x = "ISBN_13" /\ identifier x = i
           /\ forall y, In y before -> type y <> "ISBN_13")
  /\ (forall query isbn,
         let got := fun _ : string => Return {| items := Some [b] |} in
         search got query no_options = searchByIsbn got isbn
         /\ searchByIsbn got isbn = Return (normalize_isbn b)).
Proof.
  split; [reflexivity|].
  split; [reflexivity|].
  split; [apply or_str_default|].
  split; [apply or_str_default|].
  split; [apply or_num_zero|].
  split; [apply or_num_zero|].
  split; [intros i; apply find_identifier_first|].
  split; [intros i; apply find_identifier_first|].
  intros query isbn got. split; [|reflexivity].
  unfold search.
  rewrite (search_with_unfold Const got query no_options
                              {| items := Some [b] |} b [] eq_refl eq_refl).
  rewrite working_set_unfiltered by reflexivity.
  reflexivity.
Qed.

Example normalize_hyperion :
  normalize_search Samples.hyperion
  = {| r_title := "Hyperion"; r_authors := ["Dan Simmons"];
       r_publisher := "Bantam"; r_publishedDate := "1990";
       r_description := "The first Hyperion novel.";
       image := "http://books.example/h.jpg"; r_language := "en";
       r_averageRating := 4; r_ratingsCount := 250;
       r_categories := ["Fiction"]; r_pageCount := 482;
       isbn10 := Some "0553283685"; isbn13 := Some "9780553283686";
       googleBooks := {| gb_id := "v5"; preview := "http://books.example/p";
                         info := ""; canonical := "" |} |}.
Proof. reflexivity. Qed.

(** ** The request of [search] (lines 101-114) *)

Section Request.

Lemma structured_spec (query : string) :
  Spec.structured query = true
  <-> Spec.has_colon query \/ Spec.digits_and_hyphens query.
Proof.
  unfold Spec.structured.
  now rewrite orb_true_iff, has_colon_spec, match_digits_hyphens_spec.
Qed.

Lemma searchQuery_structured (query : string) :
  searchQuery query
  = if Spec.structured query then query
    else "intitle:" ++ dquote ++ query ++ dquote.
Proof.
  unfold searchQuery, Spec.structured.
  now destruct (includes query ":"), (match_digits_hyphens query).
Qed.

Lemma langParam_cases (options : SearchOptions) :
  langParam options
  = match opt_language options with
    | Some l => if (l =? "")%string then "" else "&langRestrict=" ++ l
    | None => ""
    end.
Proof.
  unfold langParam. destruct (opt_language options) as [l|]; simpl;
    [|reflexivity].
  now destruct (l =? "")%string.
Qed.

End Request.

(** C8, as amended.  [search] sends the query as it is when it holds a
    colon or is a non-empty string of digits and hyphens, and otherwise
    sends [intitle:] followed by the query between double quotes; the
    langRestrict parameter follows exactly when the language option is a
    non-empty string; the maxResults parameter closes the request, with
    the given value or with 10. *)
Theorem search_url_parts (query : string) (options : SearchOptions) :
  (Spec.has_colon query \/ Spec.digits_and_hyphens query ->
   searchQuery query = query)
  /\ (~ Spec.has_colon query -> ~ Spec.digits_and_hyphens query ->
      searchQuery query = "intitle:" ++ dquote ++ query ++ dquote)
  /\ (forall l, opt_language options = Some l -> l <> "" ->
                search_url query options
                = "https://www.googleapis.com/books/v1/volumes?q="
                  ++ encodeURIComponent (searchQuery query)
                  ++ "&langRestrict=" ++ l
                  ++ "&maxResults="
                  ++ match maxResults options with
                     | Some n => number_to_string n
                     | None => "10"
                     end)
  /\ (opt_language options = None \/ opt_language options = Some "" ->
      search_url query options
      = "https://www.googleapis.com/books/v1/volumes?q="
        ++ encodeURIComponent (searchQuery query)
        ++ "&maxResults="
        ++ match maxResults options with
           | Some n => number_to_string n
           | None => "10"
           end).
Proof.
  assert (number_to_string (default (maxResults options) 10%Z)
          = match maxResults options with
            | Some n => number_to_string n
            | None => "10"
            end) as Hn.
  { now destruct (maxResults options). }
  repeat split.
  - intros H. apply structured_spec in H.
    now rewrite searchQuery_structured, H.
  - intros Hc Hd. rewrite searchQuery_structured.
    destruct (Spec.structured query) eqn:E; [|reflexivity].
    apply structured_spec in E as [E | E]; contradiction.
  - intros l Hl Hne. unfold search_url. rewrite langParam_cases, Hl, Hn.
    destruct (String.eqb_spec l "") as [E | _]; [contradiction|].
    reflexivity.
  - intros H. unfold search_url. rewrite langParam_cases, Hn.
    now destruct H as [-> | ->].
Qed.

Lemma search_url_parts_witness :
  ~ Spec.has_colon "Dune" /\ ~ Spec.digits_and_hyphens "Dune"
  /\ search_url "Dune" (Samples.in_language "en")
     = "https://www.googleapis.com/books/v1/volumes?q=intitle%3A%22Dune%22&langRestrict=en&maxResults=10".
Proof.
  assert (~ Spec.has_colon "Dune") as Hc.
  { rewrite <- has_colon_spec. discriminate. }
  assert (~ Spec.digits_and_hyphens "Dune") as Hd.
  { rewrite <- match_digits_hyphens_spec. discriminate. }
  split; [exact Hc|]. split; [exact Hd|].
  destruct (search_url_parts "Dune" (Samples.in_language "en"))
    as [_ [Hq [Hl _]]].
  rewrite (Hl "en" eq_refl) by discriminate.
  rewrite (Hq Hc Hd). reflexivity.
Defined.

(** C8 as stated fails when the language option is set to the empty
    string: line 109 tests the option for truthiness and leaves the
    parameter out. *)
Lemma search_url_empty_language :
  opt_language (Samples.in_language "") = Some ""
  /\ search_url "Dune" (Samples.in_language "")
     = "https://www.googleapis.com/books/v1/volumes?q=intitle%3A%22Dune%22&maxResults=10"
  /\ search_url "Dune" (Samples.in_language "")
     <> Spec.claimed_url "Dune" (Samples.in_language "").
Proof. repeat split. discriminate. Qed.

Example search_url_examples :
  search_url "isbn:9780441013593" no_options
  = "https://www.googleapis.com/books/v1/volumes?q=isbn%3A9780441013593&maxResults=10"
  /\ search_url "978-0-441-01359-3" (Samples.exact_and_rated 3)
     = "https://www.googleapis.com/books/v1/volumes?q=978-0-441-01359-3&maxResults=5"
  /\ search_url "" no_options
     = "https://www.googleapis.com/books/v1/volumes?q=intitle%3A%22%22&maxResults=10"
  /\ search_url "Dune" (Samples.in_language "")
     = search_url "Dune" no_options.
Proof. repeat split. Qed.

(** Where the language option is absent or not empty, the request is the
    one C8 states. *)
Lemma search_url_claimed (query : string) (options : SearchOptions) :
  opt_language options <> Some "" ->
  search_url query options = Spec.claimed_url query options.
Proof.
  intros H. unfold search_url, Spec.claimed_url.
  rewrite searchQuery_structured, langParam_cases.
  destruct (opt_language options) as [l|]; [|reflexivity].
  destruct (String.eqb_spec l "") as [-> | _]; [now elim H | reflexivity].
Qed.

(** ** The outcome of the two operations *)

Section Outcomes.

Variable got : string -> completion Body.

(** [searchByIsbn] throws NotFound when the response has no candidate
    and returns a book otherwise. *)
Lemma searchByIsbn_outcome (isbn : string) (body : Body) :
  got (isbn_url (remove_hyphens isbn)) = Return body ->
  (Spec.no_candidates body
   /\ searchByIsbn got isbn = Throw (isbn_not_found isbn)
   /\ Spec.NotFound (isbn_not_found isbn))
  \/ (~ Spec.no_candidates body
      /\ exists first more,
          items body = Some (first :: more)
          /\ searchByIsbn got isbn = Return (normalize_isbn first)).
Proof.
  intros Hg. destruct (candidates_or_none body) as [Hn | [first [more Hi]]].
  - left. split; [exact Hn|]. split.
    + now apply (searchByIsbn_not_found got body).
    + right. now exists isbn.
  - right. split.
    + intros [H | H]; congruence.
    + exists first, more. split; [exact Hi|].
      now apply (searchByIsbn_found got body isbn first more).
Qed.

(** So does [search], were [scoredResults] declared with [let]. *)
Lemma search_let_outcome (query : string) (options : SearchOptions)
      (body : Body) :
  got (search_url query options) = Return body ->
  (Spec.no_candidates body
   /\ search_with Let got query options = Throw book_not_found
   /\ Spec.NotFound book_not_found)
  \/ (~ Spec.no_candidates body
      /\ exists result, search_with Let got query options = Return result).
Proof.
  intros Hg. destruct (candidates_or_none body) as [Hn | [first [more Hi]]].
  - left. split; [exact Hn|]. split.
    + now apply (search_with_not_found got body).
    + now left.
  - right. split.
    + intros [H | H]; congruence.
    + now apply (search_let_returns got query options body first more).
Qed.

(** As declared, [search] throws NotFound exactly when the response has
    no candidate, but need not return otherwise. *)
Lemma search_not_found_iff (query : string) (options : SearchOptions)
      (body : Body) :
  got (search_url query options) = Return body ->
  search got query options = Throw book_not_found
  <-> Spec.no_candidates body.
Proof.
  intros Hg. split.
  - intros H. destruct (candidates_or_none body) as [Hn | [first [more Hi]]];
      [exact Hn|].
    now elim (search_with_found got query options body first more Hg Hi Const).
  - now apply search_with_not_found.
Qed.

(** As declared, [search] throws whenever the filters empty the working
    set: the set is emptied by the rating filter, whose result line 161
    assigns. *)
Lemma search_const_filtered_empty (query : string) (options : SearchOptions)
      (body : Body) (first : Book) (more : list Book) :
  got (search_url query options) = Return body ->
  items body = Some (first :: more) ->
  Spec.filtered query options (first :: more) = nil ->
  search got query options = Throw const_assignment.
Proof.
  intros Hg Hi Hf.
  apply (search_const_rating_throws got query options body first more Hg Hi).
  apply (filtered_empty query options (first :: more)); [discriminate | exact Hf].
Qed.

End Outcomes.

(** ** Further properties: strings and requests *)

Section MoreStrings.

Lemma every_append (p : ascii -> bool) (a b : string) :
  every p (a ++ b) = every p a && every p b.
Proof.
  induction a as [|c a IH]; simpl; [reflexivity|].
  now rewrite IH, andb_assoc.
Qed.

Lemma every_weaken (p q : ascii -> bool) (s : string) :
  (forall c, p c = true -> q c = true) ->
  every p s = true -> every q s = true.
Proof.
  intros H. induction s as [|c s IH]; simpl; [reflexivity|].
  rewrite !andb_true_iff. intros [Hc Hs]. auto.
Qed.

Lemma encode_unit_escaped (c : ascii) :
  every escaped_unit (encode_unit c) = true.
Proof. destruct c as [[] [] [] [] [] [] [] []]; reflexivity. Qed.

Lemma encode_unit_unreserved (c : ascii) :
  uri_unreserved c = true -> encode_unit c = String c "".
Proof. unfold encode_unit. now intros ->. Qed.

Lemma digit_or_hyphen_unreserved (c : ascii) :
  is_digit c || is_hyphen c = true -> uri_unreserved c = true.
Proof. destruct c as [[] [] [] [] [] [] [] []]; simpl; auto. Qed.

Lemma lower_unit_idempotent (c : ascii) :
  lower_unit (lower_unit c) = lower_unit c.
Proof. destruct c as [[] [] [] [] [] [] [] []]; reflexivity. Qed.

Lemma lower_unit_space (c : ascii) :
  is_space (lower_unit c) = is_space c.
Proof. destruct c as [[] [] [] [] [] [] [] []]; reflexivity. Qed.

Lemma toLowerCase_idempotent (s : string) :
  toLowerCase (toLowerCase s) = toLowerCase s.
Proof.
  induction s as [|c s IH]; simpl; [reflexivity|].
  now rewrite lower_unit_idempotent, IH.
Qed.

Lemma toLowerCase_empty (s : string) :
  (toLowerCase s =? "") = (s =? "").
Proof. now destruct s. Qed.

Lemma toLowerCase_trimStart (s : string) :
  toLowerCase (trimStart s) = trimStart (toLowerCase s).
Proof.
  induction s as [|c s IH]; simpl; [reflexivity|].
  rewrite lower_unit_space. now destruct (is_space c).
Qed.

Lemma toLowerCase_trimEnd (s : string) :
  toLowerCase (trimEnd s) = trimEnd (toLowerCase s).
Proof.
  induction s as [|c s IH]; simpl; [reflexivity|].
  rewrite lower_unit_space, <- IH, toLowerCase_empty.
  now destruct (is_space c && (trimEnd s =? "")).
Qed.

Lemma toLowerCase_trim (s : string) :
  toLowerCase (trim s) = trim (toLowerCase s).
Proof.
  unfold trim. now rewrite toLowerCase_trimEnd, toLowerCase_trimStart.
Qed.

Lemma trimEnd_empty (s : string) :
  trimEnd s = "" <-> every is_space s = true.
Proof.
  induction s as [|c s IH]; simpl; [tauto|].
  destruct (is_space c); simpl.
  - destruct (String.eqb_spec (trimEnd s) "") as [E | E].
    + split; [intros _; now apply IH | reflexivity].
    + split; [discriminate | intros H; apply IH in H; contradiction].
  - split; discriminate.
Qed.

(** [trimEnd] leaves a string that does not start with white space as it
    finds its first character. *)
Lemma trimEnd_head (c : ascii) (s : string) :
  is_space c = false -> exists r, trimEnd (String c s) = String c r.
Proof. intros H. simpl. rewrite H. simpl. now eexists. Qed.

Lemma trimStart_head (s : string) :
  match trimStart s with
  | EmptyString => True
  | String c _ => is_space c = false
  end.
Proof.
  induction s as [|c s IH]; simpl; [exact I|].
  destruct (is_space c) eqn:E; [exact IH | exact E].
Qed.

Lemma trimStart_fixed (s : string) :
  match s with
  | EmptyString => True
  | String c _ => is_space c = false
  end ->
  trimStart s = s.
Proof. destruct s as [|c s]; simpl; [reflexivity | now intros ->]. Qed.

Lemma trimEnd_idempotent (s : string) : trimEnd (trimEnd s) = trimEnd s.
Proof.
  induction s as [|c s IH]; simpl; [reflexivity|].
  destruct (is_space c && (trimEnd s =? "")) eqn:E; [reflexivity|].
  simpl. now rewrite IH, E.
Qed.

Lemma trim_idempotent (s : string) : trim (trim s) = trim s.
Proof.
  unfold trim.
  assert (trimStart (trimEnd (trimStart s)) = trimEnd (trimStart s)) as ->.
  { apply trimStart_fixed. pose proof (trimStart_head s) as H.
    destruct (trimStart s) as [|c r]; [exact I|].
    destruct (trimEnd_head c r H) as [r' ->]. exact H. }
  apply trimEnd_idempotent.
Qed.

Lemma remove_hyphens_every (s : string) :
  every (fun c => negb (is_hyphen c)) (remove_hyphens s) = true.
Proof.
  unfold remove_hyphens. induction s as [|c s IH]; simpl; [reflexivity|].
  destruct (negb (is_hyphen c)) eqn:E; simpl; [now rewrite E|exact IH].
Qed.

Lemma remove_hyphens_idempotent (s : string) :
  remove_hyphens (remove_hyphens s) = remove_hyphens s.
Proof. apply keep_all, remove_hyphens_every. Qed.

Lemma encodeURIComponent_escaped (s : string) :
  every escaped_unit (encodeURIComponent s) = true.
Proof.
  induction s as [|c s IH]; simpl; [reflexivity|].
  now rewrite every_append, encode_unit_escaped, IH.
Qed.

Lemma encodeURIComponent_unreserved (s : string) :
  every uri_unreserved s = true -> encodeURIComponent s = s.
Proof.
  induction s as [|c s IH]; simpl; [reflexivity|].
  rewrite andb_true_iff. intros [Hc Hs].
  now rewrite (encode_unit_unreserved c Hc), IH.
Qed.

Lemma every_not_in (p : ascii -> bool) (s : string) (c : ascii) :
  every p s = true -> p c = false -> ~ In c (Spec.chars s).
Proof.
  intros Hs Hc Hin. rewrite every_spec in Hs. apply Hs in Hin. congruence.
Qed.

Lemma includes_char (s : string) (c : ascii) :
  includes s (String c "") = true <-> In c (Spec.chars s).
Proof.
  rewrite includes_spec. split.
  - intros [before [after ->]]. unfold Spec.chars.
    induction before as [|b before IH]; simpl; auto.
  - unfold Spec.chars. induction s as [|b s IH]; simpl; [intros []|].
    intros [-> | H].
    + now exists "", s.
    + destruct (IH H) as [before [after ->]]. now exists (String b before), after.
Qed.

End MoreStrings.

(** ** Further properties: requests, titles and scores *)

(** X5.  Whatever the query, the value [search] sends as [q] is made of
    unreserved characters and percent signs only: no ampersand, equals
    sign, hash, quote or space reaches the request through the query. *)
Theorem search_query_escaped (query : string) (options : SearchOptions) :
  exists value,
    search_url query options
    = "https://www.googleapis.com/books/v1/volumes?q=" ++ value
      ++ langParam options ++ "&maxResults="
      ++ number_to_string (default (maxResults options) 10%Z)
    /\ every escaped_unit value = true
    /\ forall c, escaped_unit c = false -> ~ In c (Spec.chars value).
Proof.
  exists (encodeURIComponent (searchQuery query)).
  split; [reflexivity|]. split; [apply encodeURIComponent_escaped|].
  intros c Hc. apply (every_not_in escaped_unit); [|exact Hc].
  apply encodeURIComponent_escaped.
Qed.

(** X6.  A query made of digits and hyphens is sent by [search] exactly
    as typed, hyphens included: it is neither wrapped nor changed by the
    URL encoding. *)
Theorem search_url_isbn_shaped (query : string) (options : SearchOptions) :
  Spec.digits_and_hyphens query ->
  search_url query options
  = "https://www.googleapis.com/books/v1/volumes?q=" ++ query
    ++ langParam options ++ "&maxResults="
    ++ number_to_string (default (maxResults options) 10%Z).
Proof.
  intros H. apply match_digits_hyphens_spec in H.
  unfold search_url, searchQuery. rewrite H, andb_false_r.
  rewrite encodeURIComponent_unreserved; [reflexivity|].
  unfold match_digits_hyphens in H. destruct query as [|c s]; [discriminate|].
  revert H. apply every_weaken. exact digit_or_hyphen_unreserved.
Qed.

Lemma search_url_isbn_shaped_witness :
  Spec.digits_and_hyphens "978-0-441-01359-3"
  /\ search_url "978-0-441-01359-3" no_options
     = "https://www.googleapis.com/books/v1/volumes?q=978-0-441-01359-3&maxResults=10".
Proof.
  assert (Spec.digits_and_hyphens "978-0-441-01359-3") as H.
  { apply match_digits_hyphens_spec. reflexivity. }
  split; [exact H|].
  rewrite (search_url_isbn_shaped "978-0-441-01359-3" no_options H).
  reflexivity.
Defined.

(** X7.  The query that [search] hands to the provider is always a
    structured one: it holds a colon or is made of digits and hyphens.
    Building the provider query from a provider query changes nothing. *)
Theorem searchQuery_structured_fixpoint (query : string) :
  (includes (searchQuery query) ":" = true
   \/ match_digits_hyphens (searchQuery query) = true)
  /\ searchQuery (searchQuery query) = searchQuery query.
Proof.
  assert (includes (searchQuery query) ":" = true
          \/ match_digits_hyphens (searchQuery query) = true) as H.
  { unfold searchQuery.
    destruct (includes query ":") eqn:Ec; simpl; [now left|].
    destruct (match_digits_hyphens query) eqn:Ed; simpl; [now right|].
    left. reflexivity. }
  split; [exact H|].
  unfold searchQuery at 1. destruct H as [-> | ->]; [reflexivity|].
  now rewrite andb_false_r.
Qed.

(** X8.  [searchByIsbn] does not tell apart two ISBNs that differ in
    their hyphens only: they lead to the same request, and one returns a
    book exactly when the other returns that book. *)
Theorem searchByIsbn_ignores_hyphens
        (got : string -> completion Body) (isbn isbn' : string) :
  remove_hyphens isbn = remove_hyphens isbn' ->
  isbn_url (remove_hyphens isbn) = isbn_url (remove_hyphens isbn')
  /\ (forall result,
         searchByIsbn got isbn = Return result
         <-> searchByIsbn got isbn' = Return result)
  /\ (forall result,
         searchByIsbn got (remove_hyphens isbn) = Return result
         <-> searchByIsbn got isbn = Return result).
Proof.
  intros H. split; [now rewrite H|].
  assert (forall a b result,
             remove_hyphens a = remove_hyphens b ->
             searchByIsbn got a = Return result ->
             searchByIsbn got b = Return result) as Hab.
  { intros a b result E. unfold searchByIsbn. cbv zeta. rewrite E.
    destruct (got _) as [e|body]; [discriminate|]. cbn [bind].
    now destruct (items body) as [[|first more]|]. }
  split; intros result; split; apply Hab;
    try rewrite remove_hyphens_idempotent; congruence.
Qed.

Lemma searchByIsbn_ignores_hyphens_witness :
  let got := Samples.provider
               "https://www.googleapis.com/books/v1/volumes?q=isbn:9780441013593"
               (Some [Samples.dune]) in
  remove_hyphens "978-0-441-01359-3" = remove_hyphens "9780-4410-13593"
  /\ (searchByIsbn got "978-0-441-01359-3" = Return (normalize_isbn Samples.dune)
      <-> searchByIsbn got "9780-4410-13593" = Return (normalize_isbn Samples.dune)).
Proof.
  cbv zeta. split; [reflexivity|].
  destruct (searchByIsbn_ignores_hyphens
              (Samples.provider
                 "https://www.googleapis.com/books/v1/volumes?q=isbn:9780441013593"
                 (Some [Samples.dune]))
              "978-0-441-01359-3" "9780-4410-13593" eq_refl)
    as [_ [H _]].
  apply H.
Defined.

(** X9.  Scoring and filtering do not see the case of the query: the
    lower-cased query gives every candidate the score of the query as
    typed, and the same working set. *)
Theorem search_ignores_query_case (query : string) :
  (forall b, score_of (toLowerCase query) b = score_of query b)
  /\ (forall item, exact (toLowerCase query) item = exact query item)
  /\ (forall d options results,
         working_set d (toLowerCase query) options results
         = working_set d query options results).
Proof.
  assert (forall b, score_of (toLowerCase query) b = score_of query b) as Hs.
  { intros b. unfold score_of. now rewrite toLowerCase_idempotent. }
  assert (forall item, exact (toLowerCase query) item = exact query item) as He.
  { intros item. unfold exact. now rewrite toLowerCase_idempotent. }
  split; [exact Hs|]. split; [exact He|].
  intros d options results.
  assert (scored (toLowerCase query) results = scored query results) as Hsc.
  { unfold scored. apply map_ext. intros b. now rewrite Hs. }
  assert (forall flag l,
             filter_exact d flag (toLowerCase query) l
             = filter_exact d flag query l) as Hfe.
  { intros flag l. unfold filter_exact.
    now rewrite (filter_ext _ _ He l). }
  unfold working_set. cbv zeta. rewrite Hsc.
  destruct (filter_rating d _ _) as [e|l]; [reflexivity|]. cbn [bind].
  now rewrite Hfe.
Qed.

(** X10.  The exact-title test does not see white space around the
    query: the trimmed query passes the filter of line 169 on exactly the
    items the query passes it on. *)
Theorem exact_ignores_padding (query : string) (item : Scored) :
  exact (trim query) item = exact query item.
Proof.
  unfold exact. now rewrite toLowerCase_trim, trim_idempotent.
Qed.

(** X14.  Without a usable thumbnail the image of the normalised book is
    built from unreserved characters, percent signs and the separators
    [: / ? = &] only, whatever title and authors hold. *)
Theorem image_fallback_alphabet (b : Book) :
  truthy (thumbnail_of (volumeInfo b)) = false ->
  every address_unit (image (normalize_search b)) = true
  /\ every address_unit (image (normalize_isbn b)) = true.
Proof.
  intros H.
  assert (every address_unit (image (normalize_search b)) = true) as Hs.
  { cbn [normalize_search image]. rewrite (or_str_falsy _ _ H).
    rewrite !every_append. apply andb_true_iff. split; [reflexivity|].
    apply andb_true_iff. split; [|reflexivity].
    apply (every_weaken escaped_unit); [|apply encodeURIComponent_escaped].
    intros c Hc. unfold address_unit. now rewrite Hc. }
  split; exact Hs.
Qed.

Lemma image_fallback_alphabet_witness :
  truthy (thumbnail_of (volumeInfo Samples.dune_blank)) = false
  /\ every address_unit (image (normalize_search Samples.dune_blank)) = true.
Proof.
  split; [reflexivity|].
  now destruct (image_fallback_alphabet Samples.dune_blank eq_refl).
Defined.

(** X15.  The normalised book has no [isbn10] exactly when the candidate
    has no identifier of type ISBN_10 (or no identifier list), and an
    [isbn10] it has is the identifier of one of the candidate's ISBN_10
    entries; likewise for [isbn13]. *)
Theorem isbn_absent_iff (b : Book) :
  (isbn10 (normalize_search b) = None
   <-> forall i, In i (or_list (industryIdentifiers (volumeInfo b))) ->
                 type i <> "ISBN_10")
  /\ (isbn13 (normalize_search b) = None
      <-> forall i, In i (or_list (industryIdentifiers (volumeInfo b))) ->
                    type i <> "ISBN_13")
  /\ (forall n, isbn10 (normalize_search b) = Some n ->
                exists i, In i (or_list (industryIdentifiers (volumeInfo b)))
                          /\ type i = "ISBN_10" /\ identifier i = n)
  /\ (forall n, isbn13 (normalize_search b) = Some n ->
                exists i, In i (or_list (industryIdentifiers (volumeInfo b)))
                          /\ type i = "ISBN_13" /\ identifier i = n).
Proof.
  assert (forall t l n,
             find_identifier t l = Some n ->
             exists i, In i l /\ type i = t /\ identifier i = n) as Hsome.
  { intros t l n H. apply find_identifier_first in H
      as [before [x [after [-> [Ht [Hi _]]]]]].
    exists x. split; [|now split]. apply in_or_app. right. now left. }
  split; [apply find_identifier_none|].
  split; [apply find_identifier_none|].
  split; intros n; apply Hsome.
Qed.

(** ** Further properties: which candidate [search] returns *)

(** X2.  Whenever [search] returns and no candidate's score is NaN,
    whatever the options, the book is the normalisation of the candidate
    whose binary64 score is highest among all the candidates of the
    response, the earliest one if several reach it: the candidates before
    it score strictly less and those after it do not score more.
    [minRating] and [exactTitleMatch] never change which book comes
    back. *)
Theorem search_returns_best_of_all
        (got : string -> completion Body) (query : string)
        (options : SearchOptions) (body : Body) (results : list Book)
        (result : BookResult) :
  got (search_url query options) = Return body ->
  items body = Some results ->
  (forall b, In b results -> Binary64.numeric (Binary64.score_of query b)) ->
  Binary64.search got query options = Return result ->
  exists before top after,
    results = (before ++ top :: after)%list
    /\ result = normalize_search top
    /\ (forall b, In b before ->
                  Binary64.lt (Binary64.score_of query b)
                              (Binary64.score_of query top))
    /\ (forall b, In b after ->
                  Binary64.le (Binary64.score_of query b)
                              (Binary64.score_of query top)).
Proof. apply search_const_result64. Qed.

Lemma search_returns_best_of_all_witness :
  let candidates := [Samples.dune_italian; messiah_12; saga_262] in
  let got := Samples.provider (search_url "Dune" exact_unrated)
                              (Some candidates) in
  (forall b, In b candidates -> Binary64.numeric (Binary64.score_of "Dune" b))
  /\ Binary64.search got "Dune" exact_unrated = Return (normalize_search saga_262)
  /\ exists before top after,
      candidates = (before ++ top :: after)%list
      /\ normalize_search saga_262 = normalize_search top
      /\ (forall b, In b before ->
                    Binary64.lt (Binary64.score_of "Dune" b)
                                (Binary64.score_of "Dune" top))
      /\ (forall b, In b after ->
                    Binary64.le (Binary64.score_of "Dune" b)
                                (Binary64.score_of "Dune" top)).
Proof.
  cbv zeta.
  assert (forall b, In b [Samples.dune_italian; messiah_12; saga_262] ->
                    Binary64.numeric (Binary64.score_of "Dune" b)) as Hn.
  { intros b [<- | [<- | [<- | []]]] H; vm_compute in H; discriminate. }
  assert (Binary64.search
            (Samples.provider (search_url "Dune" exact_unrated)
               (Some [Samples.dune_italian; messiah_12; saga_262]))
            "Dune" exact_unrated = Return (normalize_search saga_262)) as Hs.
  { vm_compute. reflexivity. }
  split; [exact Hn|]. split; [exact Hs|].
  exact (search_returns_best_of_all
           (Samples.provider (search_url "Dune" exact_unrated)
              (Some [Samples.dune_italian; messiah_12; saga_262]))
           "Dune" exact_unrated
           {| items := Some [Samples.dune_italian; messiah_12; saga_262] |}
           [Samples.dune_italian; messiah_12; saga_262]
           (normalize_search saga_262) eq_refl eq_refl Hn Hs).
Defined.

(** X4.  When no candidate's score is NaN and no other candidate scores
    strictly more than the first candidate of the response, a returning
    [search] returns the first candidate: ties go to the provider's
    ranking. *)
Theorem search_prefers_provider_order
        (got : string -> completion Body) (query : string)
        (options : SearchOptions) (body : Body) (first : Book)
        (more : list Book) (result : BookResult) :
  got (search_url query options) = Return body ->
  items body = Some (first :: more) ->
  (forall b, In b (first :: more) ->
             Binary64.numeric (Binary64.score_of query b)) ->
  (forall b, In b more ->
             Binary64.le (Binary64.score_of query b)
                         (Binary64.score_of query first)) ->
  Binary64.search got query options = Return result ->
  result = normalize_search first.
Proof.
  intros Hg Hi Hn Hmax H.
  destruct (search_const_result64 got query options body (first :: more) result
                                  Hg Hi Hn H)
    as [before [top [after [Hl [-> [Hb _]]]]]].
  destruct before as [|b before]; simpl in Hl.
  - now injection Hl as ->.
  - injection Hl as <- ->. exfalso.
    assert (Binary64.lt (Binary64.score_of query first)
                        (Binary64.score_of query top)) as H1.
    { apply Hb. now left. }
    apply lt_not_le in H1. apply H1, Hmax.
    apply in_or_app. right. now left.
Qed.

Lemma search_prefers_provider_order_witness :
  let candidates := [Samples.untitled; Samples.foo] in
  let got := Samples.provider (search_url "Arrakis" no_options)
                              (Some candidates) in
  let result :=
    {| r_title := ""; r_authors := []; r_publisher := "";
       r_publishedDate := ""; r_description := "";
       image := "https://tse2.mm.bing.net/th?q=%20by%20&w=256&c=7&rs=1&p=0&dpr=3&pid=1.7&mkt=en-IN&adlt=moderate";
       r_language := ""; r_averageRating := 0; r_ratingsCount := 0;
       r_categories := []; r_pageCount := 0; isbn10 := None; isbn13 := None;
       googleBooks := {| gb_id := "v0"; preview := ""; info := "";
                         canonical := "" |} |} in
  (forall b, In b candidates -> Binary64.numeric (Binary64.score_of "Arrakis" b))
  /\ (forall b, In b [Samples.foo] ->
                Binary64.le (Binary64.score_of "Arrakis" b)
                            (Binary64.score_of "Arrakis" Samples.untitled))
  /\ Binary64.search got "Arrakis" no_options = Return result
  /\ result = normalize_search Samples.untitled.
Proof.
  cbv zeta.
  assert (forall b, In b [Samples.untitled; Samples.foo] ->
                    Binary64.numeric (Binary64.score_of "Arrakis" b)) as Hn.
  { intros b [<- | [<- | []]] H; vm_compute in H; discriminate. }
  assert (forall b, In b [Samples.foo] ->
                    Binary64.le (Binary64.score_of "Arrakis" b)
                                (Binary64.score_of "Arrakis" Samples.untitled))
    as Hmax.
  { intros b [<- | []]. vm_compute. reflexivity. }
  split; [exact Hn|]. split; [exact Hmax|]. split; [vm_compute; reflexivity|].
  apply (search_prefers_provider_order
           (Samples.provider (search_url "Arrakis" no_options)
              (Some [Samples.untitled; Samples.foo]))
           "Arrakis" no_options
           {| items := Some [Samples.untitled; Samples.foo] |}
           Samples.untitled [Samples.foo] _ eq_refl eq_refl Hn Hmax).
  vm_compute. reflexivity.
Defined.

(** X16.  When the candidates of a response score pairwise different
    binary64 numbers, none of them NaN, the order in which the provider
    lists them does not matter: two responses with the same candidates in
    different orders make a returning [search] return the same book. *)
Theorem search_order_independent
        (got got' : string -> completion Body) (query : string)
        (options : SearchOptions) (body body' : Body)
        (candidates candidates' : list Book) (result result' : BookResult) :
  got (search_url query options) = Return body ->
  got' (search_url query options) = Return body' ->
  items body = Some candidates ->
  items body' = Some candidates' ->
  Permutation candidates candidates' ->
  (forall b, In b candidates -> Binary64.numeric (Binary64.score_of query b)) ->
  (forall a b, In a candidates -> In b candidates ->
               Binary64.same (Binary64.score_of query a)
                             (Binary64.score_of query b) = true ->
               a = b) ->
  Binary64.search got query options = Return result ->
  Binary64.search got' query options = Return result' ->
  result = result'.
Proof.
  intros Hg Hg' Hi Hi' Hp Hn Hd H H'.
  assert (forall b, In b candidates' ->
                    Binary64.numeric (Binary64.score_of query b)) as Hn'.
  { intros b Hb. apply Hn. now apply (Permutation_in _ (Permutation_sym Hp)). }
  destruct (search_const_result64 got query options body candidates result
                                  Hg Hi Hn H)
    as [before [top [after [-> [-> [Hb Ha]]]]]].
  destruct (search_const_result64 got' query options body' candidates' result'
                                  Hg' Hi' Hn' H')
    as [before' [top' [after' [-> [-> [Hb' Ha']]]]]].
  assert (forall l t r x,
             (forall b, In b l -> Binary64.lt (Binary64.score_of query b)
                                              (Binary64.score_of query t)) ->
             (forall b, In b r -> Binary64.le (Binary64.score_of query b)
                                              (Binary64.score_of query t)) ->
             In x (l ++ t :: r)%list ->
             Binary64.le (Binary64.score_of query x)
                         (Binary64.score_of query t)) as Hmax.
  { intros l t r x Hl Hr Hx. apply in_app_or in Hx as [Hx | [<- | Hx]].
    - apply lt_le. now apply Hl.
    - apply le_refl.
    - now apply Hr. }
  assert (In top (before ++ top :: after)%list) as Ht.
  { apply in_or_app. right. now left. }
  assert (In top' (before' ++ top' :: after')%list) as Ht'.
  { apply in_or_app. right. now left. }
  assert (In top' (before ++ top :: after)%list) as Ht''.
  { apply (Permutation_in _ (Permutation_sym Hp)), Ht'. }
  f_equal. apply Hd; try assumption.
  apply same_spec. split.
  - apply (Hmax before' top' after'); try assumption.
    apply (Permutation_in _ Hp), Ht.
  - now apply (Hmax before top after).
Qed.

Lemma search_order_independent_witness :
  let l := [messiah_12; saga_262] in
  let l' := [saga_262; messiah_12] in
  let got := Samples.provider (search_url "Dune" no_options) (Some l) in
  let got' := Samples.provider (search_url "Dune" no_options) (Some l') in
  Permutation l l'
  /\ (forall b, In b l -> Binary64.numeric (Binary64.score_of "Dune" b))
  /\ (forall a b, In a l -> In b l ->
                  Binary64.same (Binary64.score_of "Dune" a)
                                (Binary64.score_of "Dune" b) = true ->
                  a = b)
  /\ Binary64.search got "Dune" no_options = Return (normalize_search saga_262)
  /\ Binary64.search got' "Dune" no_options
     = Return (normalize_isbn saga_262)
  /\ normalize_search saga_262 = normalize_isbn saga_262.
Proof.
  cbv zeta.
  assert (Permutation [messiah_12; saga_262] [saga_262; messiah_12]) as Hp.
  { apply perm_swap. }
  assert (forall b, In b [messiah_12; saga_262] ->
                    Binary64.numeric (Binary64.score_of "Dune" b)) as Hn.
  { intros b [<- | [<- | []]] H; vm_compute in H; discriminate. }
  assert (forall a b,
             In a [messiah_12; saga_262] -> In b [messiah_12; saga_262] ->
             Binary64.same (Binary64.score_of "Dune" a)
                           (Binary64.score_of "Dune" b) = true ->
             a = b) as Hd.
  { intros a b [<- | [<- | []]] [<- | [<- | []]] E; try reflexivity;
      vm_compute in E; discriminate. }
  assert (Binary64.search
            (Samples.provider (search_url "Dune" no_options)
               (Some [messiah_12; saga_262]))
            "Dune" no_options = Return (normalize_search saga_262)) as H1.
  { vm_compute. reflexivity. }
  assert (Binary64.search
            (Samples.provider (search_url "Dune" no_options)
               (Some [saga_262; messiah_12]))
            "Dune" no_options = Return (normalize_isbn saga_262)) as H2.
  { vm_compute. reflexivity. }
  split; [exact Hp|]. split; [exact Hn|]. split; [exact Hd|].
  split; [exact H1|]. split; [exact H2|].
  exact (search_order_independent
           (Samples.provider (search_url "Dune" no_options)
              (Some [messiah_12; saga_262]))
           (Samples.provider (search_url "Dune" no_options)
              (Some [saga_262; messiah_12]))
           "Dune" no_options
           {| items := Some [messiah_12; saga_262] |}
           {| items := Some [saga_262; messiah_12] |}
           [messiah_12; saga_262] [saga_262; messiah_12]
           _ _ eq_refl eq_refl eq_refl eq_refl Hp Hn Hd H1 H2).
Defined.

(** X17.  The score of a candidate whose [ratingsCount] and
    [averageRating] are absent or not negative is a number: zero or more,
    or plus infinity, never NaN, whatever the query. *)
Theorem score_is_a_number (query : string) (b : Book) :
  Binary64.rating_not_negative (ratingsCount (volumeInfo b)) ->
  Binary64.rating_not_negative (averageRating (volumeInfo b)) ->
  Binary64.not_negative (Binary64.score_of query b)
  /\ Binary64.numeric (Binary64.score_of query b)
  /\ Binary64.on_grid (Binary64.score_of query b).
Proof.
  intros Hc Hr. split; [now apply score_of_not_negative|].
  split; [now apply score_of_numeric | apply score_of_on_grid].
Qed.

Lemma score_is_a_number_witness :
  Binary64.rating_not_negative (ratingsCount (volumeInfo saga_262))
  /\ Binary64.rating_not_negative (averageRating (volumeInfo saga_262))
  /\ Binary64.not_negative (Binary64.score_of "Dune" saga_262)
  /\ Binary64.numeric (Binary64.score_of "Dune" saga_262).
Proof.
  assert (Binary64.rating_not_negative (ratingsCount (volumeInfo saga_262)))
    as Hc by (vm_compute; discriminate).
  assert (Binary64.rating_not_negative (averageRating (volumeInfo saga_262)))
    as Hr by (vm_compute; discriminate).
  split; [exact Hc|]. split; [exact Hr|].
  destruct (score_is_a_number "Dune" saga_262 Hc Hr) as [H1 [H2 _]].
  split; assumption.
Defined.
